(** * CookieCloudManager: cookie selection, TTL cache and configuration persistence

    A shallow embedding of [crawlers/utils/cookiecloud_manager.py].  Python
    strings are [string]s of bytes, dictionaries without a meaningful order
    are [gmap]s, dictionaries that are iterated are association lists in
    insertion order, and every call that may raise inside a [try] block
    returns an [option].  What the environment does during a call (the reply
    of the remote store, the readings of the wall clock, faults of the disk)
    is an explicit argument of the function that observes it. *)

From Stdlib Require Import ZArith Ascii String List Bool Lia DecimalString.
From stdpp Require Import base option list strings gmap fin_maps.

Local Open Scope string_scope.
Local Open Scope Z_scope.

(** ** Strings *)

Module Str.

(** [str.lower] on the ASCII range: only the letters [A]-[Z] change. *)
Definition lower_ascii (a : ascii) : ascii :=
  let n := nat_of_ascii a in
  if (Nat.leb 65 n && Nat.leb n 90)%bool then ascii_of_nat (n + 32) else a.

Fixpoint lower (s : string) : string :=
  match s with
  | EmptyString => EmptyString
  | String a r => String (lower_ascii a) (lower r)
  end.

(** [s.lstrip('.')]: every leading dot is removed. *)
Fixpoint lstrip_dot (s : string) : string :=
  match s with
  | String "." r => lstrip_dot r
  | _ => s
  end.

(** [t in d]: [t] occurs in [d] as a contiguous substring. *)
Fixpoint contains (t d : string) : bool :=
  String.prefix t d
  || match d with
     | EmptyString => false
     | String _ r => contains t r
     end.

(** [t.endswith(s)] *)
Fixpoint endswith (t s : string) : bool :=
  String.eqb t s
  || match t with
     | EmptyString => false
     | String _ r => endswith r s
     end.

(** Truthiness of a Python string. *)
Definition nonempty (s : string) : bool :=
  match s with
  | EmptyString => false
  | String _ _ => true
  end.

(** [s[:k]], the first [k] bytes of [s]. *)
Definition take (k : nat) (s : string) : string := String.substring 0 k s.

End Str.

(** ** Cookie records and the remote cookie set *)

(** A cookie dictionary as the manager reads it: [cookie.get(key, '')] for the
    three keys, so that an absent key is the empty string. *)
Record cookie := Cookie {
  name : string;
  value : string;
  domain : string
}.

(** An element of a per-domain list: a cookie dictionary, or some other value
    on which [cookie.get] raises [AttributeError]. *)
Inductive item :=
| ItemCookie (c : cookie)
| ItemOther.

(** A value of the decrypted data: a list of items, or anything that is not a
    list (the [update_time] stamp, for instance). *)
Inductive entry :=
| EntryList (l : list item)
| EntryOther.

(** The outcome of [client.get_decrypted_data()]. *)
Inductive fetch_result :=
| FetchRaises
| FetchNone
| FetchData (d : list (string * entry)).

(** ** Domain matching (get_cookies, the condition of the inner loop) *)

Definition domain_match (target_domain : string) (c : cookie) : bool :=
  let cookie_domain := Str.lower (domain c) in
  String.eqb cookie_domain target_domain
  || String.eqb cookie_domain ("." +:+ target_domain)
  || Str.contains target_domain cookie_domain
  || String.eqb (Str.lstrip_dot cookie_domain) target_domain
  || Str.endswith target_domain (Str.lstrip_dot cookie_domain).

(** The inner loop over one list; [None] when an element raises. *)
Fixpoint match_list (target_domain : string) (l : list item)
    (matched_cookies : list cookie) : option (list cookie) :=
  match l with
  | [] => Some matched_cookies
  | ItemOther :: _ => None
  | ItemCookie c :: r =>
      match_list target_domain r
        (if domain_match target_domain c
         then matched_cookies ++ [c] else matched_cookies)
  end.

(** The outer loop over [all_cookies.items()]. *)
Fixpoint match_all (target_domain : string) (d : list (string * entry))
    (matched_cookies : list cookie) : option (list cookie) :=
  match d with
  | [] => Some matched_cookies
  | (key, e) :: r =>
      if String.eqb key "update_time" then match_all target_domain r matched_cookies
      else match e with
           | EntryList l =>
               match match_list target_domain l matched_cookies with
               | None => None
               | Some acc => match_all target_domain r acc
               end
           | EntryOther => match_all target_domain r matched_cookies
           end
  end.

(** ** _format_cookies_for_requests *)

Fixpoint format_loop (cookies : list cookie) (cookie_pairs : list string)
    : list string :=
  match cookies with
  | [] => cookie_pairs
  | c :: r =>
      format_loop r
        (if (Str.nonempty (name c) && Str.nonempty (value c))%bool
         then cookie_pairs ++ [name c +:+ "=" +:+ value c]
         else cookie_pairs)
  end.

Definition _format_cookies_for_requests (cookies : list cookie) : string :=
  match cookies with
  | [] => ""
  | _ => String.concat "; " (format_loop cookies [])
  end.

(** The rendering in the words of the specification: the records with a
    non-empty name and a non-empty value, each as [name=value], joined in
    order by [; ]. *)
Definition keeps (c : cookie) : bool :=
  (Str.nonempty (name c) && Str.nonempty (value c))%bool.

Definition render_pairs (cookies : list cookie) : string :=
  String.concat "; "
    (List.map (fun c => name c +:+ "=" +:+ value c) (List.filter keeps cookies)).

(** ** The manager *)

(** The fields of [CookieCloudManager] that the modelled methods read or
    write.  Times are seconds on the wall clock, read here as integers;
    [client_ready] says that [self.client] is not [None]. *)
Record manager := Manager {
  project_root : string;
  enabled : bool;
  cache_ttl : Z;
  domain_mapping : list (string * string);
  client_ready : bool;
  cache : gmap string string;
  cache_timestamps : gmap string Z
}.

(** [dict.get(key)] on a dictionary kept in insertion order. *)
Fixpoint dict_get {A} (key : string) (d : list (string * A)) : option A :=
  match d with
  | [] => None
  | (k, v) :: r => if String.eqb k key then Some v else dict_get key r
  end.

Definition keys {A} (d : list (string * A)) : list string := List.map fst d.

(** [_is_cache_valid], with [current_time] the reading of [time.time()]. *)
Definition _is_cache_valid (m : manager) (current_time : Z) (platform : string)
    : bool :=
  match cache_timestamps m !! platform with
  | None => false
  | Some cache_time => (current_time - cache_time) <? cache_ttl m
  end.

Definition _get_domain_for_platform (m : manager) (platform : string) : string :=
  match dict_get platform (domain_mapping m) with
  | Some d => d
  | None => platform +:+ ".com"
  end.

(** What the environment does during one resolution and the persist that may
    follow it. *)
Inductive disk_fault :=
| NoFault
| ReadFails
| OpenForWriteFails
| WriteFailsAfter (k : nat).

Record env := Env {
  remote : fetch_result;
  time_at_check : Z;
  time_at_store : Z;
  disk : disk_fault
}.

Definition store_cache (m : manager) (platform cookie_string : string) (now : Z)
    : manager :=
  {| project_root := project_root m;
     enabled := enabled m;
     cache_ttl := cache_ttl m;
     domain_mapping := domain_mapping m;
     client_ready := client_ready m;
     cache := <[platform := cookie_string]> (cache m);
     cache_timestamps := <[platform := now]> (cache_timestamps m) |}.

(** [get_cookies]: the returned value ([None] is Python's [None]) and the
    manager after the call. *)
Definition get_cookies (m : manager) (e : env) (platform : string)
    (force_refresh : bool) : option string * manager :=
  if negb (enabled m) then (None, m)
  else if (negb force_refresh && _is_cache_valid m (time_at_check e) platform)%bool
  then (cache m !! platform, m)
  else if negb (client_ready m) then (None, m)
  else match remote e with
       | FetchRaises => (None, m)
       | FetchNone => (None, m)
       | FetchData [] => (None, m)
       | FetchData all_cookies =>
           let target_domain := _get_domain_for_platform m platform in
           match match_all target_domain all_cookies [] with
           | None => (None, m)
           | Some [] => (None, m)
           | Some matched_cookies =>
               let cookie_string := _format_cookies_for_requests matched_cookies in
               (Some cookie_string,
                store_cache m platform cookie_string (time_at_store e))
           end
       end.

(** ** Configuration files *)

(** The values [yaml.safe_load] builds, with mappings in document order. *)
#[warnings="-register-all"]
Inductive yaml :=
| YNull
| YBool (b : bool)
| YInt (z : Z)
| YStr (s : string)
| YSeq (l : list yaml)
| YMap (l : list (string * yaml)).

(** [d[key] = v] on a dictionary: the value is replaced in place when the key
    is present and appended otherwise. *)
Fixpoint dict_set {A} (key : string) (v : A) (d : list (string * A))
    : list (string * A) :=
  match d with
  | [] => [(key, v)]
  | (k, x) :: r =>
      if String.eqb k key then (k, v) :: r else (k, x) :: dict_set key v r
  end.

(** [v[key]]: [KeyError] on an absent key, [TypeError] on anything that is
    not a dictionary. *)
Definition getitem (v : yaml) (key : string) : option yaml :=
  match v with
  | YMap l => dict_get key l
  | _ => None
  end.

(** [v[key] = x]: [TypeError] on anything that is not a dictionary. *)
Definition setitem (v : yaml) (key : string) (x : yaml) : option yaml :=
  match v with
  | YMap l => Some (YMap (dict_set key x l))
  | _ => None
  end.

(** [platform_config['TokenManager'][platform]['headers'][field] = cookie];
    the nested dictionaries are rebuilt along the path. *)
Definition set_header (platform_config : yaml) (platform field cookie : string)
    : option yaml :=
  tm ← getitem platform_config "TokenManager";
  pf ← getitem tm platform;
  headers ← getitem pf "headers";
  headers' ← setitem headers field (YStr cookie);
  pf' ← setitem pf "headers" headers';
  tm' ← setitem tm platform pf';
  setitem platform_config "TokenManager" tm'.

(** The [if]/[elif] chain on the platform name. *)
Definition update_cookie (platform_config : yaml) (platform cookie : string)
    : option yaml :=
  if String.eqb platform "douyin" then set_header platform_config "douyin" "Cookie" cookie
  else if String.eqb platform "tiktok" then set_header platform_config "tiktok" "Cookie" cookie
  else if String.eqb platform "bilibili" then set_header platform_config "bilibili" "cookie" cookie
  else Some platform_config.

(** [config_file_map.get(platform)] *)
Definition config_file_map (m : manager) (platform : string) : option string :=
  if String.eqb platform "douyin"
  then Some (project_root m +:+ "/crawlers/douyin/web/config.yaml")
  else if String.eqb platform "tiktok"
  then Some (project_root m +:+ "/crawlers/tiktok/web/config.yaml")
  else if String.eqb platform "bilibili"
  then Some (project_root m +:+ "/crawlers/bilibili/web/config.yaml")
  else None.

(** The file system: the content of every existing file, and the accesses
    made so far, latest first. *)
Inductive io_event :=
| IoExists (path : string)
| IoRead (path : string)
| IoWrite (path : string).

Record fs := Fs {
  files : gmap string string;
  io_log : list io_event
}.

Definition touch (ev : io_event) (s : fs) : fs :=
  {| files := files s; io_log := ev :: io_log s |}.

(** [open(path, 'w')] followed by writes that put [content] on the disk. *)
Definition write_file (path content : string) (s : fs) : fs :=
  {| files := <[path := content]> (files s); io_log := IoWrite path :: io_log s |}.

Section Persist.

(** The YAML library: [safe_load] is [None] when it raises, [dump] is the
    text [yaml.dump] produces with the options of the call. *)
Variable safe_load : string → option yaml.
Variable dump : yaml → string.

(** [update_config_file]: the returned flag and the file system after the
    call. *)
Definition update_config_file (m : manager) (fault : disk_fault)
    (platform cookie : string) (s : fs) : bool * fs :=
  match config_file_map m platform with
  | None => (false, s)
  | Some config_file =>
      let s1 := touch (IoExists config_file) s in
      match files s !! config_file with
      | None => (false, s1)
      | Some content =>
          match fault with
          | ReadFails => (false, s1)
          | _ =>
              let s2 := touch (IoRead config_file) s1 in
              match safe_load content with
              | None => (false, s2)
              | Some platform_config =>
                  match update_cookie platform_config platform cookie with
                  | None => (false, s2)
                  | Some platform_config' =>
                      match fault with
                      | OpenForWriteFails => (false, s2)
                      | WriteFailsAfter k =>
                          (false,
                           write_file config_file
                             (Str.take k (dump platform_config')) s2)
                      | NoFault | ReadFails =>
                          (true, write_file config_file (dump platform_config') s2)
                      end
                  end
              end
          end
      end
  end.

(** The body of the loop of [refresh_all_cookies]; [envs platform] is what
    the environment does during the turn of [platform]. *)
Definition refresh_step (envs : string → env)
    (st : manager * fs * gmap string bool) (platform : string)
    : manager * fs * gmap string bool :=
  let '(m, s, results) := st in
  let e := envs platform in
  match get_cookies m e platform true with
  | (Some cookie, m') =>
      if Str.nonempty cookie
      then let '(success, s') := update_config_file m' (disk e) platform cookie s in
           (m', s', <[platform := success]> results)
      else (m', s, <[platform := false]> results)
  | (None, m') => (m', s, <[platform := false]> results)
  end.

Definition refresh_all_cookies (m : manager) (envs : string → env) (s : fs)
    : manager * fs * gmap string bool :=
  fold_left (refresh_step envs) (keys (domain_mapping m)) (m, s, ∅).

(** The flag that the turn of [platform] records when it starts from the
    manager [m] and the disk [s]. *)
Definition turn_outcome (m : manager) (e : env) (platform : string) (s : fs)
    : bool :=
  match (get_cookies m e platform true).1 with
  | Some cookie =>
      Str.nonempty cookie && (update_config_file m (disk e) platform cookie s).1
  | None => false
  end.

End Persist.

(** ** The matching rule in the words of the specification *)

Definition strip_one_dot (s : string) : string :=
  match s with
  | String "." r => r
  | _ => s
  end.

(** Both domains are compared without regard to case. *)
Definition matches_spec (d t : string) : Prop :=
  let d' := Str.lower d in
  let t' := Str.lower t in
  d' = t'
  ∨ d' = "." +:+ t'
  ∨ (∃ a b, d' = a +:+ t' +:+ b)
  ∨ strip_one_dot d' = t'
  ∨ (∃ a, t' = a +:+ Str.lstrip_dot d').

(** ** What one turn of the refresh loop depends on *)

(** The fields of the manager that no modelled method assigns. *)
Definition same_config (m1 m2 : manager) : Prop :=
  project_root m1 = project_root m2
  ∧ enabled m1 = enabled m2
  ∧ cache_ttl m1 = cache_ttl m2
  ∧ domain_mapping m1 = domain_mapping m2
  ∧ client_ready m1 = client_ready m2.

Definition event_path (ev : io_event) : string :=
  match ev with
  | IoExists p | IoRead p | IoWrite p => p
  end.

(** ** Ways in which a resolution that reaches the remote store fails *)

Inductive resolution_fails (m : manager) (e : env) (platform : string) : Prop :=
| ClientMissing :
    client_ready m = false → resolution_fails m e platform
| RemoteRaises :
    remote e = FetchRaises → resolution_fails m e platform
| RemoteNothing :
    remote e = FetchNone → resolution_fails m e platform
| RemoteEmpty :
    remote e = FetchData [] → resolution_fails m e platform
| NoMatch d :
    remote e = FetchData d →
    match_all (_get_domain_for_platform m platform) d [] = Some [] →
    resolution_fails m e platform
| MatchRaises d :
    remote e = FetchData d →
    match_all (_get_domain_for_platform m platform) d [] = None →
    resolution_fails m e platform.

(** ** Sample data *)

Module Sample.

(** The mapping that [setup_cookiecloud.py] writes. *)
Definition mapping : list (string * string) :=
  [("douyin", "douyin.com"); ("tiktok", "tiktok.com"); ("bilibili", "bilibili.com")].

Definition fresh : manager :=
  {| project_root := "/srv/api";
     enabled := true;
     cache_ttl := 3600;
     domain_mapping := mapping;
     client_ready := true;
     cache := ∅;
     cache_timestamps := ∅ |}.

(** A manager that resolved [douyin] at time 1000. *)
Definition warm : manager :=
  store_cache fresh "douyin" "sessionid=old" 1000.

Definition data : list (string * entry) :=
  [("update_time", EntryOther);
   ("bilibili.com",
    EntryList [ItemCookie (Cookie "SESSDATA" "abc" ".bilibili.com");
               ItemCookie (Cookie "bili_jct" "" "bilibili.com")]);
   ("douyin.com", EntryList [ItemCookie (Cookie "sessionid" "s1" ".Douyin.com")]);
   ("youtube.com", EntryList [ItemCookie (Cookie "SID" "y1" ".youtube.com")])].

Definition env_ok : env :=
  {| remote := FetchData data; time_at_check := 5000; time_at_store := 5001;
     disk := NoFault |}.

Definition env_down : env :=
  {| remote := FetchRaises; time_at_check := 5000; time_at_store := 5001;
     disk := NoFault |}.

(** The configuration files of two platforms, and what [yaml.safe_load]
    makes of them. *)
Definition douyin_doc : string :=
  "{TokenManager: {douyin: {headers: {Cookie: old, User-Agent: UA}, proxies: {http: null}}}}".

Definition douyin_config : yaml :=
  YMap [("TokenManager",
         YMap [("douyin",
                YMap [("headers", YMap [("Cookie", YStr "old"); ("User-Agent", YStr "UA")]);
                      ("proxies", YMap [("http", YNull)])])])].

Definition bilibili_doc : string :=
  "{TokenManager: {bilibili: {headers: {cookie: old}}}}".

Definition bilibili_config : yaml :=
  YMap [("TokenManager",
         YMap [("bilibili", YMap [("headers", YMap [("cookie", YStr "old")])])])].

(** A loader that knows these two documents and raises on any other text. *)
Definition load (text : string) : option yaml :=
  if String.eqb text douyin_doc then Some douyin_config
  else if String.eqb text bilibili_doc then Some bilibili_config
  else None.

(** A printer in YAML flow style, in the place of [yaml.dump]. *)
Fixpoint flow_dump (v : yaml) : string :=
  match v with
  | YNull => "null"
  | YBool true => "true"
  | YBool false => "false"
  | YInt z => NilZero.string_of_int (Z.to_int z)
  | YStr s => s
  | YSeq l =>
      "[" +:+ (fix items (l : list yaml) : string :=
                 match l with
                 | [] => ""
                 | [x] => flow_dump x
                 | x :: r => flow_dump x +:+ ", " +:+ items r
                 end) l +:+ "]"
  | YMap l =>
      "{" +:+ (fix pairs (l : list (string * yaml)) : string :=
                 match l with
                 | [] => ""
                 | [(k, x)] => k +:+ ": " +:+ flow_dump x
                 | (k, x) :: r => k +:+ ": " +:+ flow_dump x +:+ ", " +:+ pairs r
                 end) l +:+ "}"
  end.

Definition douyin_path : string := "/srv/api/crawlers/douyin/web/config.yaml".
Definition bilibili_path : string := "/srv/api/crawlers/bilibili/web/config.yaml".

Definition disk0 : fs :=
  {| files := <[douyin_path := douyin_doc]> (<[bilibili_path := bilibili_doc]> ∅);
     io_log := [] |}.

(** A manager whose mapping names [douyin] only. *)
Definition only_douyin : manager :=
  {| project_root := "/srv/api";
     enabled := true;
     cache_ttl := 3600;
     domain_mapping := [("douyin", "douyin.com")];
     client_ready := true;
     cache := ∅;
     cache_timestamps := ∅ |}.

(** A manager whose mapping names a fourth platform. *)
Definition with_youtube : manager :=
  {| project_root := "/srv/api";
     enabled := true;
     cache_ttl := 3600;
     domain_mapping := (mapping ++ [("youtube", "youtube.com")])%list;
     client_ready := true;
     cache := ∅;
     cache_timestamps := ∅ |}.

(** A manager whose mapping writes the domain of [bilibili] with a capital. *)
Definition capital_target : manager :=
  {| project_root := "/srv/api";
     enabled := true;
     cache_ttl := 3600;
     domain_mapping := [("bilibili", "Bilibili.com")];
     client_ready := true;
     cache := ∅;
     cache_timestamps := ∅ |}.

(** A configuration file of [tiktok] as the crawler expects it. *)
Definition tiktok_config : yaml :=
  YMap [("TokenManager",
         YMap [("tiktok",
                YMap [("headers",
                       YMap [("User-Agent", YStr "UA"); ("Referer", YStr "https://www.tiktok.com/");
                             ("Cookie", YStr "file-cookie")]);
                      ("proxies", YMap [("http", YNull); ("https", YNull)])])])].

(** The configuration of [bilibili] with a new cookie, and a loader that
    also knows the text [flow_dump] prints for it. *)
Definition bilibili_config_new : yaml :=
  YMap [("TokenManager",
         YMap [("bilibili", YMap [("headers", YMap [("cookie", YStr "SESSDATA=abc")])])])].

Definition reload (text : string) : option yaml :=
  if String.eqb text (flow_dump bilibili_config_new) then Some bilibili_config_new
  else load text.

(** The remote store is down during the turn of [tiktok]. *)
Definition envs (platform : string) : env :=
  if String.eqb platform "tiktok" then env_down else env_ok.

End Sample.

(** ** get_cache_status *)

(** One entry of the status report.  [last_update] is the stored time that
    the source renders with [isoformat]. *)
Record cache_status := CacheStatus {
  cached : bool;
  cache_age_seconds : Z;
  remaining_seconds : Z;
  is_valid : bool;
  last_update : option Z
}.

(** The body of the loop: [current_time] is read once before the loop,
    [validity_time] is the reading of the clock inside [_is_cache_valid].
    Times being integers here, [int(age)] and [int(remaining)] are [age] and
    [remaining]. *)
Definition platform_status (m : manager) (current_time validity_time : Z)
    (platform : string) : cache_status :=
  match cache_timestamps m !! platform with
  | Some cache_time =>
      let age := current_time - cache_time in
      let remaining := Z.max 0 (cache_ttl m - age) in
      {| cached := true;
         cache_age_seconds := age;
         remaining_seconds := remaining;
         is_valid := _is_cache_valid m validity_time platform;
         last_update := Some cache_time |}
  | None =>
      {| cached := false;
         cache_age_seconds := 0;
         remaining_seconds := 0;
         is_valid := false;
         last_update := None |}
  end.

Definition get_cache_status (m : manager) (current_time : Z)
    (clock : string → Z) : gmap string cache_status :=
  fold_left
    (λ status platform,
       <[platform := platform_status m current_time (clock platform) platform]> status)
    (keys (domain_mapping m)) ∅.

(** ** Clearing the cache (the [DELETE /cache] endpoint) *)

Definition clear_cookie_cache (m : manager) : manager :=
  {| project_root := project_root m;
     enabled := enabled m;
     cache_ttl := cache_ttl m;
     domain_mapping := domain_mapping m;
     client_ready := client_ready m;
     cache := ∅;
     cache_timestamps := ∅ |}.

(** ** _init_client *)

Record credentials := Credentials {
  server_url : string;
  uuid : string;
  password : string
}.

(** The flags [enabled] and [client is not None] after [_init_client]:
    [available] is [COOKIECLOUD_AVAILABLE], [enabled_before] is the flag that
    [_load_config] left, [constructed] says that the constructor of the
    client returned. *)
Definition _init_client (available enabled_before : bool) (cr : credentials)
    (constructed : bool) : bool * bool :=
  if negb available then (false, false)
  else if negb enabled_before then (enabled_before, false)
  else if negb (Str.nonempty (server_url cr) && Str.nonempty (uuid cr)
                && Str.nonempty (password cr))
  then (false, false)
  else if constructed then (enabled_before, true)
  else (false, false).

(** ** Counting a result map *)

(** [sum(1 for success in results.values() if success)] and
    [len(results)]. *)
Definition success_count (results : gmap string bool) : nat :=
  length (List.filter (λ kv : string * bool, kv.2) (map_to_list results)).

Definition total_count (results : gmap string bool) : nat :=
  length (map_to_list results).

(** ** The callers of the refresh *)

Section Callers.

Variable safe_load : string → option yaml.
Variable dump : yaml → string.

(** [AutoRefreshService.refresh_all_cookies]: the returned flag, the manager
    and the disk after the call. *)
Definition service_refresh_all_cookies (m : manager) (envs : string → env)
    (s : fs) : bool * (manager * fs) :=
  if negb (enabled m) then (false, (m, s))
  else
    let st := refresh_all_cookies safe_load dump m envs s in
    (Nat.eqb (success_count st.2) (total_count st.2), st.1).

(** The body of the loop of [refresh_cookies] in [manage_cookies.py]; a turn
    is a platform with what the environment does during it. *)
Definition cli_refresh_step (st : manager * fs * gmap string bool)
    (turn : string * env) : manager * fs * gmap string bool :=
  let '(m, s, results) := st in
  let '(platform, e) := turn in
  match dict_get platform (domain_mapping m) with
  | None => (m, s, <[platform := false]> results)
  | Some _ =>
      match get_cookies m e platform true with
      | (Some cookie, m') =>
          if Str.nonempty cookie
          then let '(success, s') :=
                 update_config_file safe_load dump m' (disk e) platform cookie s in
               (m', s', <[platform := success]> results)
          else (m', s, <[platform := false]> results)
      | (None, m') => (m', s, <[platform := false]> results)
      end
  end.

Definition cli_run (m : manager) (turns : list (string * env)) (s : fs)
    : bool * (manager * fs * gmap string bool) :=
  let st := fold_left cli_refresh_step turns (m, s, ∅) in
  (Nat.eqb (success_count st.2) (total_count st.2), st).

(** [refresh_cookies(platforms, all_platforms)]: the returned flag and the
    manager, the disk and the result map when it returns. *)
Definition cli_refresh_cookies (m : manager)
    (platforms : option (list (string * env))) (all_platforms : bool)
    (envs : string → env) (s : fs)
    : bool * (manager * fs * gmap string bool) :=
  if negb (enabled m) then (false, (m, s, ∅))
  else if all_platforms
  then cli_run m (List.map (λ p, (p, envs p)) (keys (domain_mapping m))) s
  else match platforms with
       | None | Some [] => (false, (m, s, ∅))
       | Some turns => cli_run m turns s
       end.

(** The [POST /refresh] endpoint.  The body of its loop, which counts the
    successes as it goes. *)
Definition api_refresh_step (force_refresh : bool)
    (st : manager * fs * gmap string bool * nat) (turn : string * env)
    : manager * fs * gmap string bool * nat :=
  let '(m, s, results, success_count) := st in
  let '(platform, e) := turn in
  match get_cookies m e platform force_refresh with
  | (Some cookie, m') =>
      if Str.nonempty cookie
      then let '(update_success, s') :=
             update_config_file safe_load dump m' (disk e) platform cookie s in
           (m', s', <[platform := update_success]> results,
            if update_success then S success_count else success_count)
      else (m', s, <[platform := false]> results, success_count)
  | (None, m') => (m', s, <[platform := false]> results, success_count)
  end.

(** The response ([success], [results]) and the manager and the disk after
    the request. *)
Definition api_refresh_cookies (m : manager)
    (platforms : list (string * env)) (force_refresh : bool)
    (envs : string → env) (s : fs)
    : (bool * gmap string bool) * (manager * fs) :=
  if negb (enabled m) then ((false, ∅), (m, s))
  else
    let run turns :=
      let st := fold_left (api_refresh_step force_refresh) turns (m, s, ∅, 0%nat) in
      ((Nat.eqb st.2 (length turns), st.1.2), st.1.1) in
    match platforms with
    | [] => run (List.map (λ p, (p, envs p)) (keys (domain_mapping m)))
    | _ =>
        if forallb (λ turn : string * env,
                      bool_decide (is_Some (dict_get turn.1 (domain_mapping m))))
             platforms
        then run platforms
        else ((false, ∅), (m, s))
    end.

End Callers.

(** ** EnhancedCrawlerMixin (crawlers/utils/enhanced_crawler.py) *)

(** Truthiness of a value that [yaml.safe_load] built. *)
Definition py_truthy (v : yaml) : bool :=
  match v with
  | YNull => false
  | YBool b => b
  | YInt z => negb (z =? 0)
  | YStr s => Str.nonempty s
  | YSeq l => match l with [] => false | _ => true end
  | YMap l => match l with [] => false | _ => true end
  end.

(** The name inferred from the class name, put in lower case. *)
Definition infer_platform_name (class_name : string) : string :=
  let class_name := Str.lower class_name in
  if Str.contains "douyin" class_name then "douyin"
  else if Str.contains "tiktok" class_name then "tiktok"
  else if Str.contains "bilibili" class_name then "bilibili"
  else "unknown".

(** [_get_platform_name]: the name returned, which is also the new value of
    [self._platform_name]. *)
Definition _get_platform_name (platform_name : option string)
    (class_name : string) : string :=
  match platform_name with
  | Some n => if Str.nonempty n then n else infer_platform_name class_name
  | None => infer_platform_name class_name
  end.

(** [v.get(key, default)]: [AttributeError] on anything that is not a
    dictionary. *)
Definition py_get (v : yaml) (key : string) (default : yaml) : option yaml :=
  match v with
  | YMap l => Some (match dict_get key l with Some x => x | None => default end)
  | _ => None
  end.

(** The body of the [try] of [_get_fallback_cookie] on a loaded
    configuration, and the [return ""] that follows it. *)
Definition fallback_cookie_of (config : yaml) (platform : string) : yaml :=
  let chain (p field : string) : option yaml :=
    tm ← py_get config "TokenManager" (YMap []);
    pf ← py_get tm p (YMap []);
    headers ← py_get pf "headers" (YMap []);
    py_get headers field (YStr "") in
  let found :=
    if String.eqb platform "douyin" then chain "douyin" "Cookie"
    else if String.eqb platform "tiktok" then chain "tiktok" "Cookie"
    else if String.eqb platform "bilibili" then chain "bilibili" "cookie"
    else None in
  match found with
  | Some v => v
  | None => YStr ""
  end.

(** [v[key]] with the exception it raises. *)
Inductive subscript_error := KeyError | TypeError.

Definition subscript (v : yaml) (key : string) : subscript_error + yaml :=
  match v with
  | YMap l =>
      match dict_get key l with
      | Some x => inr x
      | None => inl KeyError
      end
  | _ => inl TypeError
  end.

Definition and_then {A B} (r : subscript_error + A)
    (k : A → subscript_error + B) : subscript_error + B :=
  match r with
  | inl err => inl err
  | inr a => k a
  end.

(** [platform_config[section][field]] *)
Definition subscript2 (platform_config : yaml) (section field : string)
    : subscript_error + yaml :=
  and_then (subscript platform_config section) (λ v, subscript v field).

(** The dictionary display of [base_headers]: the fields are read in
    order. *)
Fixpoint read_headers (platform_config : yaml) (fields : list string)
    : subscript_error + list (string * yaml) :=
  match fields with
  | [] => inr []
  | f :: r =>
      and_then (subscript2 platform_config "headers" f) (λ v,
      and_then (read_headers platform_config r) (λ l, inr ((f, v) :: l)))
  end.

(** One branch of the [if]/[elif] chain followed by the proxies:
    [base_headers], [fallback_cookie] and [proxies]. *)
Definition read_platform (config : yaml) (platform : string)
    (fields : list string) (cookie_field : string)
    : subscript_error + (list (string * yaml) * yaml * list (string * yaml)) :=
  and_then (subscript2 config "TokenManager" platform) (λ platform_config,
  and_then (read_headers platform_config fields) (λ base_headers,
  and_then (subscript2 platform_config "headers" cookie_field) (λ fallback_cookie,
  and_then (subscript2 platform_config "proxies" "http") (λ http,
  and_then (subscript2 platform_config "proxies" "https") (λ https,
  inr (base_headers, fallback_cookie, [("http://", http); ("https://", https)])))))).

Inductive headers_outcome :=
| HeadersRaised (err : subscript_error)
| HeadersReturned (headers proxies : list (string * yaml)).

(** The fields each platform reads, and the key its cookie goes under. *)
Definition douyin_fields : list string := ["Accept-Language"; "User-Agent"; "Referer"].
Definition tiktok_fields : list string := ["User-Agent"; "Referer"].
Definition bilibili_fields : list string :=
  ["accept-language"; "origin"; "referer"; "user-agent"].

Definition cookie_key (platform : string) : string :=
  if String.eqb platform "bilibili" then "cookie" else "Cookie".

(** [get_enhanced_headers] from the loaded configuration on: what it
    returns or raises, and the manager after the call. *)
Definition enhanced_headers_from (m : manager) (e : env) (config : yaml)
    (platform : string) : headers_outcome * manager :=
  if negb (py_truthy config) then (HeadersReturned [] [], m)
  else
    let read :=
      if String.eqb platform "douyin"
      then Some (read_platform config "douyin" douyin_fields "Cookie")
      else if String.eqb platform "tiktok"
      then Some (read_platform config "tiktok" tiktok_fields "Cookie")
      else if String.eqb platform "bilibili"
      then Some (read_platform config "bilibili" bilibili_fields "cookie")
      else None in
    match read with
    | None => (HeadersReturned [] [], m)
    | Some (inl KeyError) => (HeadersReturned [] [], m)
    | Some (inl TypeError) => (HeadersRaised TypeError, m)
    | Some (inr (base_headers, fallback_cookie, proxies)) =>
        let '(dynamic_cookie, m') :=
          if enabled m then get_cookies m e platform false else (None, m) in
        let final_cookie :=
          match dynamic_cookie with
          | Some c => if Str.nonempty c then YStr c else fallback_cookie
          | None => fallback_cookie
          end in
        (HeadersReturned (dict_set (cookie_key platform) final_cookie base_headers)
           proxies, m')
    end.

Section Crawler.

Variable safe_load : string → option yaml.

(** [_load_config_file]: the configuration returned and [_config_cache]
    after the call; [disk] is the content of the files. *)
Definition _load_config_file (config_cache : gmap string yaml)
    (disk : gmap string string) (config_path : string)
    : yaml * gmap string yaml :=
  match config_cache !! config_path with
  | Some config => (config, config_cache)
  | None =>
      match disk !! config_path with
      | None => (YMap [], config_cache)
      | Some content =>
          match safe_load content with
          | None => (YMap [], config_cache)
          | Some config => (config, <[config_path := config]> config_cache)
          end
      end
  end.

(** [_get_fallback_cookie] *)
Definition _get_fallback_cookie (config_cache : gmap string yaml)
    (disk : gmap string string) (platform config_path : string)
    : yaml * gmap string yaml :=
  let '(config, config_cache') := _load_config_file config_cache disk config_path in
  (fallback_cookie_of config platform, config_cache').

(** [get_enhanced_headers]: the outcome, [_platform_name], [_config_cache]
    and the manager after the call. *)
Definition get_enhanced_headers (platform_name : option string)
    (class_name : string) (config_cache : gmap string yaml) (m : manager)
    (e : env) (disk : gmap string string) (config_path : string)
    (platform : option string)
    : headers_outcome * option string * gmap string yaml * manager :=
  let '(platform, platform_name') :=
    match platform with
    | Some p => (p, platform_name)
    | None =>
        let n := _get_platform_name platform_name class_name in (n, Some n)
    end in
  let '(config, config_cache') := _load_config_file config_cache disk config_path in
  let '(outcome, m') := enhanced_headers_from m e config platform in
  (outcome, platform_name', config_cache', m').

End Crawler.

(** ** The statistics of the connection test *)

(** The loop of [test_connection] ([manage_cookies.py]) and of the
    [POST /test-connection] endpoint: the number of cookies and the domains
    with the length of their lists. *)
Fixpoint connection_stats (data : list (string * entry))
    (total_cookies : nat) (domains : list (string * nat))
    : nat * list (string * nat) :=
  match data with
  | [] => (total_cookies, domains)
  | (domain, cookie_list) :: r =>
      if String.eqb domain "update_time" then connection_stats r total_cookies domains
      else match cookie_list with
           | EntryList l =>
               connection_stats r (total_cookies + length l)
                 (domains ++ [(domain, length l)])
           | EntryOther => connection_stats r total_cookies domains
           end
  end.

(** The test from the fetch on: [None] when it reports a failure, the
    statistics otherwise. *)
Definition test_connection (m : manager) (reply : fetch_result)
    : option (nat * list (string * nat)) :=
  if negb (enabled m) then None
  else if negb (client_ready m) then None
  else match reply with
       | FetchRaises | FetchNone | FetchData [] => None
       | FetchData data => Some (connection_stats data 0%nat [])
       end.

(** ** The records a resolution looks at *)

(** The items that the two loops of [get_cookies] visit: those of every list
    stored under a key other than [update_time], in order. *)
Definition visited_items (all_cookies : list (string * entry)) : list item :=
  flat_map
    (λ kv, if String.eqb kv.1 "update_time" then []
           else match kv.2 with
                | EntryList l => l
                | EntryOther => []
                end)
    all_cookies.

(** The cookie dictionaries of a list of items, when all of them are
    dictionaries. *)
Fixpoint cookies_of (l : list item) : option (list cookie) :=
  match l with
  | [] => Some []
  | ItemCookie c :: r => cons c <$> cookies_of r
  | ItemOther :: _ => None
  end.

(** The two dictionaries of the cache have the same keys. *)
Definition cache_consistent (m : manager) : Prop :=
  ∀ platform,
    is_Some (cache m !! platform) ↔ is_Some (cache_timestamps m !! platform).

(** * Properties *)

(** ** Strings *)

Lemma app_cons (x : ascii) (s t : string) :
  String x s +:+ t = String x (s +:+ t).
Proof. reflexivity. Qed.

Lemma append_nil_r (s : string) : s +:+ "" = s.
Proof. induction s as [|a s IH]; [done | by rewrite app_cons, IH]. Qed.

Lemma append_inj_l (r a b : string) : r +:+ a = r +:+ b → a = b.
Proof.
  induction r as [|x r IH]; [done |].
  rewrite !app_cons. intros [=]. auto.
Qed.

Lemma prefix_nil (d : string) : String.prefix "" d = true.
Proof. by destruct d. Qed.

Lemma prefix_spec (t d : string) :
  String.prefix t d = true ↔ ∃ b, d = t +:+ b.
Proof.
  revert d. induction t as [|x t IH]; intros d.
  - rewrite prefix_nil. split; [intros _; by exists d | done].
  - destruct d as [|y d]; simpl.
    + split; [done | intros [b Hb]; discriminate].
    + setoid_rewrite app_cons.
      destruct (Ascii.ascii_dec x y) as [->|Hne].
      * rewrite IH. split; intros [b Hb]; exists b; [by rewrite Hb | by injection Hb].
      * split; [done | intros [b Hb]; injection Hb; congruence].
Qed.

Lemma contains_spec (t d : string) :
  Str.contains t d = true ↔ ∃ a b, d = a +:+ t +:+ b.
Proof.
  induction d as [|y d IH].
  - cbn [Str.contains]. rewrite orb_false_r, prefix_spec. split.
    + intros [b Hb]. by exists "", b.
    + intros (a & b & H). destruct a; [by exists b | discriminate].
  - cbn [Str.contains]. rewrite orb_true_iff, prefix_spec, IH. split.
    + intros [[b Hb] | (a & b & H)].
      * by exists "", b.
      * exists (String y a), b. by rewrite app_cons, H.
    + intros (a & b & H). destruct a as [|x a].
      * left. by exists b.
      * right. exists a, b. rewrite app_cons in H. by injection H.
Qed.

Lemma endswith_spec (t s : string) :
  Str.endswith t s = true ↔ ∃ a, t = a +:+ s.
Proof.
  induction t as [|x t IH].
  - cbn [Str.endswith]. rewrite orb_false_r, String.eqb_eq. split.
    + intros <-. by exists "".
    + intros [a H]. destruct a; [done | discriminate].
  - cbn [Str.endswith]. rewrite orb_true_iff, String.eqb_eq, IH. split.
    + intros [<- | [a ->]]; [by exists "" | by exists (String x a)].
    + intros [a H]. destruct a as [|y a]; [by left | right].
      exists a. rewrite app_cons in H. by injection H.
Qed.

Lemma lstrip_dot_cons (x : ascii) (s : string) :
  Str.lstrip_dot (String x s)
  = if Ascii.eqb x "." then Str.lstrip_dot s else String x s.
Proof. by destruct x as [[] [] [] [] [] [] [] []]. Qed.

(** What [lstrip] leaves is a suffix of the string. *)
Lemma lstrip_dot_suffix (s : string) : ∃ a, s = a +:+ Str.lstrip_dot s.
Proof.
  induction s as [|x s [a IH]]; [by exists "" |].
  rewrite lstrip_dot_cons. destruct (Ascii.eqb_spec x ".") as [->|Hne].
  - exists (String "." a). by rewrite app_cons, <- IH.
  - by exists "".
Qed.

Lemma strip_one_dot_suffix (s : string) : ∃ a, s = a +:+ strip_one_dot s.
Proof.
  destruct s as [|x s]; [by exists "" |].
  destruct (Ascii.eqb_spec x ".") as [->|Hne]; [by exists "." |].
  exists "". by destruct x as [[] [] [] [] [] [] [] []].
Qed.

(** ** The domain matcher *)

(** With a target that is already in lower case the condition of the loop is
    the rule of the specification: the three equalities are instances of the
    substring test, whether one dot or every leading dot is stripped. *)
Lemma domain_match_lower_target (t : string) (c : cookie) :
  Str.lower t = t →
  domain_match t c = true ↔ matches_spec (domain c) t.
Proof.
  intros Ht. unfold domain_match, matches_spec. cbv zeta. rewrite Ht.
  set (d := Str.lower (domain c)).
  rewrite !orb_true_iff, !String.eqb_eq, contains_spec, endswith_spec.
  split.
  - intros [[[[H | H] | H] | H] | H]; [tauto | tauto | tauto | | tauto].
    right; right; left.
    destruct (lstrip_dot_suffix d) as [a Ha]. exists a, "".
    by rewrite append_nil_r, <- H.
  - intros [H | [H | [H | [H | H]]]]; [tauto | tauto | tauto | | tauto].
    left; left; right.
    destruct (strip_one_dot_suffix d) as [a Ha]. exists a, "".
    by rewrite append_nil_r, <- H.
Qed.

(** C2, as the code has it: for the target [bilibili.com] the condition
    accepts a record whose domain is [bilibili.com], [.bilibili.com],
    [live.bilibili.com] or [m.bilibili.com], and it accepts [notbilibili.com]
    as well, since the target occurs in it as a substring. *)
Theorem domain_match_bilibili (n v : string) :
  domain_match "bilibili.com" (Cookie n v "bilibili.com") = true
  ∧ domain_match "bilibili.com" (Cookie n v ".bilibili.com") = true
  ∧ domain_match "bilibili.com" (Cookie n v "live.bilibili.com") = true
  ∧ domain_match "bilibili.com" (Cookie n v "m.bilibili.com") = true
  ∧ domain_match "bilibili.com" (Cookie n v "notbilibili.com") = true.
Proof. repeat split; reflexivity. Qed.

(** C2, as stated, fails: the record of [notbilibili.com] is not rejected. *)
Lemma domain_match_notbilibili_accepted :
  ¬ (domain_match "bilibili.com" (Cookie "SESSDATA" "abc" "bilibili.com") = true
     ∧ domain_match "bilibili.com" (Cookie "SESSDATA" "abc" ".bilibili.com") = true
     ∧ domain_match "bilibili.com" (Cookie "SESSDATA" "abc" "live.bilibili.com") = true
     ∧ domain_match "bilibili.com" (Cookie "SESSDATA" "abc" "m.bilibili.com") = true
     ∧ domain_match "bilibili.com" (Cookie "SESSDATA" "abc" "notbilibili.com") = false).
Proof. intros (_ & _ & _ & _ & H). vm_compute in H. discriminate. Qed.

(** C7 at a target written with a capital letter: the rule of the
    specification, which ignores case, selects the record of [bilibili.com]
    for the target [Bilibili.com], and the condition of the loop, which puts
    only the record's domain in lower case, does not. *)
Theorem domain_match_target_case :
  matches_spec "bilibili.com" "Bilibili.com"
  ∧ domain_match "Bilibili.com" (Cookie "SESSDATA" "abc" "bilibili.com") = false
  ∧ matches_spec ".bilibili.com" (_get_domain_for_platform Sample.capital_target "bilibili")
  ∧ get_cookies Sample.capital_target Sample.env_ok "bilibili" true
    = (None, Sample.capital_target).
Proof.
  split; [by left |]. split; [reflexivity |].
  split; [right; by left | reflexivity].
Qed.

(** ** Formatting *)

Lemma format_loop_spec (cookies : list cookie) (acc : list string) :
  format_loop cookies acc
  = (acc ++ List.map (fun c => name c +:+ "=" +:+ value c) (List.filter keeps cookies))%list.
Proof.
  revert acc. induction cookies as [|c r IH]; intros acc; simpl.
  - by rewrite app_nil_r.
  - rewrite IH. unfold keeps at 2.
    destruct (Str.nonempty (name c) && Str.nonempty (value c))%bool; simpl;
      [by rewrite <- app_assoc | done].
Qed.

(** A record with an empty name or an empty value leaves no trace; any other
    record comes first, followed by the separator when more pairs follow. *)
Lemma render_pairs_cons (c : cookie) (r : list cookie) :
  render_pairs (c :: r)
  = if keeps c
    then match List.filter keeps r with
         | [] => name c +:+ "=" +:+ value c
         | _ => (name c +:+ "=" +:+ value c) +:+ "; " +:+ render_pairs r
         end
    else render_pairs r.
Proof.
  unfold render_pairs. simpl. destruct (keeps c); [| done].
  simpl. by destruct (List.filter keeps r).
Qed.

(** C8: the formatted string is the [name=value] pairs of the records with a
    non-empty name and a non-empty value, in order, joined by [; ]; the empty
    list gives the empty string; being a total function, formatting returns a
    string on every list. *)
Theorem format_cookies_spec :
  (∀ cookies, _format_cookies_for_requests cookies = render_pairs cookies)
  ∧ _format_cookies_for_requests [] = "".
Proof.
  split; [| reflexivity].
  intros [|c r]; [reflexivity |].
  unfold _format_cookies_for_requests, render_pairs.
  by rewrite format_loop_spec.
Qed.

(** ** The cache *)

Lemma dict_get_None {A} (key : string) (d : list (string * A)) :
  dict_get key d = None ↔ key ∉ keys d.
Proof.
  induction d as [|[k v] r IH]; simpl.
  - split; [intros _; apply not_elem_of_nil | done].
  - rewrite not_elem_of_cons. destruct (String.eqb_spec k key) as [->|Hne].
    + split; [done | tauto].
    + rewrite IH. split; [by intros ? | tauto].
Qed.

(** C4: an entry is valid exactly when it has a stored time and
    [now - fetchedAt < ttl]; at age [ttl - 1] it is valid, at age [ttl] it
    is not, and a platform without a stored time is not valid. *)
Theorem is_cache_valid_spec :
  (∀ m now platform,
      _is_cache_valid m now platform = true
      ↔ ∃ fetched_at, cache_timestamps m !! platform = Some fetched_at
                      ∧ now - fetched_at < cache_ttl m)
  ∧ (∀ m platform s fetched_at,
        _is_cache_valid (store_cache m platform s fetched_at)
          (fetched_at + (cache_ttl m - 1)) platform = true)
  ∧ (∀ m platform s fetched_at,
        _is_cache_valid (store_cache m platform s fetched_at)
          (fetched_at + cache_ttl m) platform = false)
  ∧ (∀ m now platform,
        cache_timestamps m !! platform = None →
        _is_cache_valid m now platform = false).
Proof.
  repeat split.
  - unfold _is_cache_valid. destruct (cache_timestamps m !! platform) as [t|]; [| done].
    intros H. exists t. split; [done | by apply Z.ltb_lt].
  - intros (t & Ht & Hlt). unfold _is_cache_valid. rewrite Ht. by apply Z.ltb_lt.
  - intros. unfold _is_cache_valid, store_cache. simpl.
    rewrite lookup_insert_eq. apply Z.ltb_lt. lia.
  - intros. unfold _is_cache_valid, store_cache. simpl.
    rewrite lookup_insert_eq. apply Z.ltb_ge. lia.
  - intros m now platform H. unfold _is_cache_valid. by rewrite H.
Qed.

(** ** Resolution *)

(** Whatever the path, a call that returns [None] leaves the manager as it
    was. *)
Lemma get_cookies_None_frame (m : manager) (e : env) (platform : string)
    (force_refresh : bool) :
  (get_cookies m e platform force_refresh).1 = None →
  (get_cookies m e platform force_refresh).2 = m.
Proof.
  unfold get_cookies.
  repeat (match goal with
          | |- context [if ?b then _ else _] => destruct b
          | |- context [match ?x with _ => _ end] => destruct x
          end; simpl; try done).
Qed.

(** C5: a resolution that is forced, or that finds no valid entry, and that
    fails at the remote store, at the matcher or by an exception returns
    [None] and hands back the very manager it was given: the cache and the
    stored times of every platform, the stale entry of this one included, are
    as before. *)
Theorem get_cookies_failure_frame (m : manager) (e : env) (platform : string)
    (force_refresh : bool) :
  force_refresh = true ∨ _is_cache_valid m (time_at_check e) platform = false →
  resolution_fails m e platform →
  get_cookies m e platform force_refresh = (None, m).
Proof.
  intros Hmiss Hfail. unfold get_cookies.
  destruct (enabled m); simpl; [| done].
  assert (Hb : (negb force_refresh
                && _is_cache_valid m (time_at_check e) platform)%bool = false).
  { destruct Hmiss as [-> | ->]; [done | apply andb_false_r]. }
  rewrite Hb.
  destruct Hfail as [Hc | Hr | Hr | Hr | d Hr Hm | d Hr Hm].
  - by rewrite Hc.
  - destruct (client_ready m); simpl; [by rewrite Hr | done].
  - destruct (client_ready m); simpl; [by rewrite Hr | done].
  - destruct (client_ready m); simpl; [by rewrite Hr | done].
  - destruct (client_ready m); simpl; [| done]. rewrite Hr.
    destruct d; [done |]. by rewrite Hm.
  - destruct (client_ready m); simpl; [| done]. rewrite Hr.
    destruct d; [done |]. by rewrite Hm.
Qed.

Lemma get_cookies_failure_frame_witness :
  get_cookies Sample.warm Sample.env_down "douyin" false = (None, Sample.warm)
  ∧ cache Sample.warm !! "douyin" = Some "sessionid=old".
Proof.
  split.
  - apply get_cookies_failure_frame.
    + right. vm_compute. reflexivity.
    + apply RemoteRaises. reflexivity.
  - apply lookup_insert_eq.
Defined.

(** C9: for a platform that the mapping does not name, the target domain is
    the platform name followed by [.com], and a resolution goes on with that
    domain: when records match it, they are formatted, cached and returned. *)
Theorem get_domain_unmapped (m : manager) (e : env) (platform : string) :
  platform ∉ keys (domain_mapping m) →
  _get_domain_for_platform m platform = platform +:+ ".com"
  ∧ (∀ d c l,
        enabled m = true → client_ready m = true →
        remote e = FetchData d →
        match_all (platform +:+ ".com") d [] = Some (c :: l) →
        get_cookies m e platform true
        = (Some (_format_cookies_for_requests (c :: l)),
           store_cache m platform (_format_cookies_for_requests (c :: l))
             (time_at_store e))).
Proof.
  intros Hp. apply dict_get_None in Hp.
  assert (Hd : _get_domain_for_platform m platform = platform +:+ ".com").
  { unfold _get_domain_for_platform. by rewrite Hp. }
  split; [done |].
  intros d c l He Hc Hr Hm. unfold get_cookies.
  rewrite He, Hc, Hr. simpl. rewrite Hd, Hm.
  destruct d; [done | done].
Qed.

Lemma get_domain_unmapped_witness :
  _get_domain_for_platform Sample.fresh "youtube" = "youtube.com"
  ∧ (get_cookies Sample.fresh Sample.env_ok "youtube" true).1 = Some "SID=y1".
Proof.
  assert (H : "youtube" ∉ keys (domain_mapping Sample.fresh)).
  { apply dict_get_None. reflexivity. }
  destruct (get_domain_unmapped Sample.fresh Sample.env_ok "youtube" H) as [H1 H2].
  split; [exact H1 |].
  rewrite (H2 Sample.data (Cookie "SID" "y1" ".youtube.com") []); reflexivity.
Defined.

(** ** What a resolution reads and writes *)

Lemma same_config_refl (m : manager) : same_config m m.
Proof. by repeat split. Qed.

Lemma same_config_trans (m1 m2 m3 : manager) :
  same_config m1 m2 → same_config m2 m3 → same_config m1 m3.
Proof.
  intros (? & ? & ? & ? & ?) (? & ? & ? & ? & ?). repeat split; congruence.
Qed.

Ltac get_cookies_cases :=
  unfold get_cookies;
  repeat (match goal with
          | |- context [if ?b then _ else _] => destruct b
          | |- context [match ?x with _ => _ end] => destruct x
          end; simpl; try done).

(** A resolution assigns the cache and the stored times, nothing else. *)
Lemma get_cookies_same_config (m : manager) (e : env) (platform : string)
    (force_refresh : bool) :
  same_config m (get_cookies m e platform force_refresh).2.
Proof. get_cookies_cases; apply same_config_refl. Qed.

(** It assigns them at its own platform only. *)
Lemma get_cookies_cache_other (m : manager) (e : env) (platform p : string)
    (force_refresh : bool) :
  p ≠ platform →
  cache (get_cookies m e platform force_refresh).2 !! p = cache m !! p
  ∧ cache_timestamps (get_cookies m e platform force_refresh).2 !! p
    = cache_timestamps m !! p.
Proof.
  intros Hne. get_cookies_cases; split; apply lookup_insert_ne; congruence.
Qed.

(** A forced resolution does not read the cache: what it returns is fixed by
    the configuration and by the reply of the remote store. *)
Lemma get_cookies_forced_result (m1 m2 : manager) (e : env) (platform : string) :
  same_config m1 m2 →
  (get_cookies m1 e platform true).1 = (get_cookies m2 e platform true).1.
Proof.
  intros (_ & He & _ & Hd & Hc). unfold get_cookies, _get_domain_for_platform.
  rewrite <- He, <- Hd, <- Hc. simpl.
  destruct (enabled m1); simpl; [| done].
  destruct (client_ready m1); simpl; [| done].
  destruct (remote e) as [| | [|kv d]]; try done.
  destruct (match_all _ (kv :: d) []) as [[|c l]|]; done.
Qed.

(** ** Configuration files *)

Lemma config_file_map_Some (m : manager) (platform path : string) :
  config_file_map m platform = Some path →
  (platform = "douyin" ∨ platform = "tiktok" ∨ platform = "bilibili")
  ∧ path = project_root m +:+ "/crawlers/" +:+ platform +:+ "/web/config.yaml".
Proof.
  unfold config_file_map.
  destruct (String.eqb_spec platform "douyin") as [->|?]; [intros [= <-]; tauto |].
  destruct (String.eqb_spec platform "tiktok") as [->|?]; [intros [= <-]; tauto |].
  destruct (String.eqb_spec platform "bilibili") as [->|?]; [intros [= <-]; tauto |].
  done.
Qed.

Lemma config_file_map_None (m : manager) (platform : string) :
  platform ≠ "douyin" → platform ≠ "tiktok" → platform ≠ "bilibili" →
  config_file_map m platform = None.
Proof.
  intros H1 H2 H3. unfold config_file_map.
  destruct (String.eqb_spec platform "douyin"); [done |].
  destruct (String.eqb_spec platform "tiktok"); [done |].
  by destruct (String.eqb_spec platform "bilibili").
Qed.

Lemma config_file_map_root (m1 m2 : manager) (platform : string) :
  project_root m1 = project_root m2 →
  config_file_map m1 platform = config_file_map m2 platform.
Proof. intros H. unfold config_file_map. by rewrite H. Qed.

(** Two platforms never share a configuration file. *)
Lemma config_file_map_inj (m : manager) (p q path : string) :
  config_file_map m p = Some path → config_file_map m q = Some path → p = q.
Proof.
  intros Hp Hq.
  apply config_file_map_Some in Hp as [Hp ->].
  apply config_file_map_Some in Hq as [Hq Heq].
  apply append_inj_l in Heq.
  destruct Hp as [-> | [-> | ->]], Hq as [-> | [-> | ->]];
    first [reflexivity | discriminate Heq].
Qed.

Ltac no_events :=
  exists []; split; [done | by intros ? ?%elem_of_nil].

Section PersistProps.

Variable safe_load : string → option yaml.
Variable dump : yaml → string.

Local Abbreviation update_config_file := (update_config_file safe_load dump).
Local Abbreviation refresh_step := (refresh_step safe_load dump).
Local Abbreviation refresh_all_cookies := (refresh_all_cookies safe_load dump).

(** A platform without a configuration file: nothing is looked at. *)
Lemma update_config_file_unknown m fault platform cookie s :
  config_file_map m platform = None →
  update_config_file m fault platform cookie s = (false, s).
Proof. intros H. unfold update_config_file. by rewrite H. Qed.

(** The call touches the file of its platform only: every other file keeps
    its content, and every access it logs is to that file. *)
Lemma update_config_file_footprint m fault platform cookie s :
  let s' := (update_config_file m fault platform cookie s).2 in
  (∀ path, config_file_map m platform ≠ Some path →
           files s' !! path = files s !! path)
  ∧ ∃ evs, io_log s' = (evs ++ io_log s)%list
           ∧ ∀ ev, ev ∈ evs → config_file_map m platform = Some (event_path ev).
Proof.
  unfold update_config_file.
  destruct (config_file_map m platform) as [cf|] eqn:Hcf; simpl.
  2:{ split; [done |]. no_events. }
  assert (H1 : ∀ ev : io_event, ev ∈ [IoExists cf] → Some cf = Some (event_path ev)).
  { intros ev ->%list_elem_of_singleton. done. }
  assert (H2 : ∀ ev : io_event, ev ∈ [IoRead cf; IoExists cf] →
               Some cf = Some (event_path ev)).
  { intros ev [-> | ->%list_elem_of_singleton]%elem_of_cons; done. }
  assert (H3 : ∀ ev : io_event, ev ∈ [IoWrite cf; IoRead cf; IoExists cf] →
               Some cf = Some (event_path ev)).
  { intros ev [-> | [-> | ->%list_elem_of_singleton]%elem_of_cons]%elem_of_cons; done. }
  assert (Hw : ∀ content path, Some cf ≠ Some path →
               <[cf := content]> (files s) !! path = files s !! path).
  { intros content path Hne. apply lookup_insert_ne. congruence. }
  destruct (files s !! cf) as [content|]; simpl.
  2:{ split; [done |]. by exists [IoExists cf]. }
  destruct (safe_load content) as [cfg|]; simpl.
  - destruct (update_cookie cfg platform cookie) as [cfg'|]; simpl.
    + destruct fault; simpl; (split; [by auto |]);
        first [ by exists [IoWrite cf; IoRead cf; IoExists cf]
              | by exists [IoRead cf; IoExists cf]
              | by exists [IoExists cf] ].
    + destruct fault; simpl; (split; [by auto |]);
        first [ by exists [IoRead cf; IoExists cf] | by exists [IoExists cf] ].
  - destruct fault; simpl; (split; [by auto |]);
      first [ by exists [IoRead cf; IoExists cf] | by exists [IoExists cf] ].
Qed.

(** The flag depends on the project root and on the content of the
    platform's own file, and on nothing else of the manager or the disk. *)
Lemma update_config_file_flag m1 m2 fault platform cookie s1 s2 :
  project_root m1 = project_root m2 →
  (∀ path, config_file_map m1 platform = Some path →
           files s1 !! path = files s2 !! path) →
  (update_config_file m1 fault platform cookie s1).1
  = (update_config_file m2 fault platform cookie s2).1.
Proof.
  intros Hroot Hfile. unfold update_config_file.
  rewrite <- (config_file_map_root m1 m2 platform Hroot).
  destruct (config_file_map m1 platform) as [cf|]; [| done].
  rewrite <- (Hfile cf eq_refl).
  destruct (files s1 !! cf) as [content|]; [| done].
  destruct (safe_load content) as [cfg|]; [| by destruct fault].
  destruct (update_cookie cfg platform cookie); by destruct fault.
Qed.

(** The turn of a platform in the refresh loop. *)
Lemma turn_outcome_congr m1 m2 e platform s1 s2 :
  same_config m1 m2 →
  (∀ path, config_file_map m1 platform = Some path →
           files s1 !! path = files s2 !! path) →
  turn_outcome safe_load dump m1 e platform s1
  = turn_outcome safe_load dump m2 e platform s2.
Proof.
  intros Hcfg Hfile. unfold turn_outcome.
  rewrite <- (get_cookies_forced_result m1 m2 e platform Hcfg).
  destruct (get_cookies m1 e platform true).1 as [cookie|]; [| done].
  f_equal. apply update_config_file_flag; [apply Hcfg | done].
Qed.

Lemma refresh_step_spec envs m s r q :
  let st := refresh_step envs (m, s, r) q in
  same_config m st.1.1
  ∧ st.2 = <[q := turn_outcome safe_load dump m (envs q) q s]> r
  ∧ (∀ p, p ≠ q →
          cache st.1.1 !! p = cache m !! p
          ∧ cache_timestamps st.1.1 !! p = cache_timestamps m !! p)
  ∧ (∀ path, config_file_map m q ≠ Some path →
             files st.1.2 !! path = files s !! path)
  ∧ ∃ evs, io_log st.1.2 = (evs ++ io_log s)%list
           ∧ ∀ ev, ev ∈ evs → config_file_map m q = Some (event_path ev).
Proof.
  pose proof (get_cookies_same_config m (envs q) q true) as Hcfg.
  pose proof (λ p, get_cookies_cache_other m (envs q) q p true) as Hother.
  unfold refresh_step, turn_outcome.
  destruct (get_cookies m (envs q) q true) as [[cookie|] m'] eqn:Hg;
    simpl in Hcfg, Hother |- *.
  2:{ do 4 (split; [done |]). no_events. }
  destruct (Str.nonempty cookie); simpl.
  2:{ do 4 (split; [done |]). no_events. }
  pose proof (update_config_file_footprint m' (disk (envs q)) q cookie s) as Hfoot.
  pose proof (update_config_file_flag m' m (disk (envs q)) q cookie s s) as Hflag.
  rewrite (config_file_map_root m' m q) in Hfoot, Hflag by (symmetry; apply Hcfg).
  destruct (update_config_file m' (disk (envs q)) q cookie s) as [ok s'] eqn:Hu.
  simpl in Hfoot, Hflag |- *. destruct Hfoot as [Hfiles Hlog].
  split; [done |]. split; [| done].
  rewrite Hflag; [done | symmetry; apply Hcfg | done].
Qed.

(** The loop over a list of platforms: a platform that is not in the list
    keeps its entry of the result map, its cache entry, its stored time and
    its configuration file, and every access to the disk is to the file of a
    platform of the list. *)
Lemma refresh_fold_frame envs l m s r :
  let st := fold_left (refresh_step envs) l (m, s, r) in
  same_config m st.1.1
  ∧ (∀ p, p ∉ l →
          st.2 !! p = r !! p
          ∧ cache st.1.1 !! p = cache m !! p
          ∧ cache_timestamps st.1.1 !! p = cache_timestamps m !! p
          ∧ ∀ path, config_file_map m p = Some path →
                    files st.1.2 !! path = files s !! path)
  ∧ ∃ evs, io_log st.1.2 = (evs ++ io_log s)%list
           ∧ ∀ ev, ev ∈ evs →
                   ∃ q, q ∈ l ∧ config_file_map m q = Some (event_path ev).
Proof.
  revert m s r. induction l as [|q l IH]; intros m s r; cbn [fold_left].
  { simpl. split; [apply same_config_refl |]. split; [done |]. no_events. }
  destruct (refresh_step_spec envs m s r q) as (Hcfg & Hr & Hcache & Hfiles & evs1 & Hlog1 & Hev1).
  destruct (refresh_step envs (m, s, r) q) as [[m1 s1] r1]. simpl in *.
  destruct (IH m1 s1 r1) as (Hcfg' & Hframe & evs2 & Hlog2 & Hev2).
  assert (Hroot : ∀ p, config_file_map m1 p = config_file_map m p).
  { intros p. apply config_file_map_root. symmetry. apply Hcfg. }
  split; [by eapply same_config_trans |]. split.
  - intros p [Hpq Hpl]%not_elem_of_cons.
    destruct (Hframe p Hpl) as (H1 & H2 & H3 & H4).
    destruct (Hcache p Hpq) as [H5 H6].
    rewrite H1, H2, H3. split; [rewrite Hr; by apply lookup_insert_ne |].
    split; [done |]. split; [done |].
    intros path Hpath. rewrite H4 by (by rewrite Hroot).
    apply Hfiles. intros Hq. apply Hpq. by eapply config_file_map_inj.
  - exists (evs2 ++ evs1)%list. split; [by rewrite Hlog2, Hlog1, app_assoc |].
    intros ev [Hin | Hin]%elem_of_app.
    + destruct (Hev2 ev Hin) as (q' & Hq' & Hmap). exists q'.
      split; [apply elem_of_cons; by right | by rewrite <- Hroot].
    + exists q. split; [apply elem_of_cons; by left | by apply Hev1].
Qed.

(** With each platform listed once, the entry of a platform is the outcome
    of its own turn, as if that turn had started from the manager and the
    disk the loop started from. *)
Lemma refresh_fold_results envs l m0 s0 :
  NoDup l →
  ∀ m s r,
    same_config m0 m →
    (∀ p path, p ∈ l → config_file_map m0 p = Some path →
               files s !! path = files s0 !! path) →
    ∀ p, p ∈ l →
         (fold_left (refresh_step envs) l (m, s, r)).2 !! p
         = Some (turn_outcome safe_load dump m0 (envs p) p s0).
Proof.
  induction l as [|q l IH]; intros Hnd m s r Hcfg Hfiles p Hp.
  { by apply elem_of_nil in Hp. }
  apply NoDup_cons in Hnd as [Hq Hnd]. cbn [fold_left].
  destruct (refresh_step_spec envs m s r q) as (Hcfg1 & Hr & _ & Hfiles1 & _).
  pose proof (refresh_fold_frame envs l) as Hframe.
  destruct (refresh_step envs (m, s, r) q) as [[m1 s1] r1]. simpl in *.
  assert (Hroot : ∀ p, config_file_map m p = config_file_map m0 p).
  { intros p'. apply config_file_map_root. symmetry. apply Hcfg. }
  destruct (decide (p = q)) as [->|Hne].
  - destruct (Hframe m1 s1 r1) as (_ & Hkeep & _).
    destruct (Hkeep q Hq) as [-> _]. rewrite Hr, lookup_insert_eq. f_equal.
    symmetry. apply turn_outcome_congr; [done |].
    intros path Hpath. symmetry. apply (Hfiles q); [apply elem_of_cons; by left | done].
  - apply elem_of_cons in Hp as [? | Hp]; [done |].
    apply IH; [done | by eapply same_config_trans | | done].
    intros p' path Hp' Hpath. rewrite Hfiles1.
    + apply (Hfiles p'); [apply elem_of_cons; by right | done].
    + rewrite Hroot. intros Hq'. apply Hq.
      by rewrite <- (config_file_map_inj m0 p' q path).
Qed.

(** A platform without a configuration file is recorded as failed, whatever
    its resolution gave. *)
Lemma refresh_fold_unknown envs l p :
  (∀ m, config_file_map m p = None) →
  ∀ m s r,
    p ∈ l ∨ r !! p = Some false →
    (fold_left (refresh_step envs) l (m, s, r)).2 !! p = Some false.
Proof.
  intros Hnone. induction l as [|q l IH]; intros m s r H; cbn [fold_left].
  { destruct H as [H | H]; [by apply elem_of_nil in H | done]. }
  destruct (refresh_step_spec envs m s r q) as (_ & Hr & _).
  destruct (refresh_step envs (m, s, r) q) as [[m1 s1] r1]. simpl in *.
  apply IH. destruct (decide (p = q)) as [<-|Hne].
  - right. rewrite Hr, lookup_insert_eq. f_equal. unfold turn_outcome.
    destruct (get_cookies m (envs p) p true).1; [| done].
    rewrite update_config_file_unknown by done. apply andb_false_r.
  - destruct H as [[? | H]%elem_of_cons | H]; [done | by left | right].
    rewrite Hr. by rewrite lookup_insert_ne.
Qed.

(** C1, as the code has it: once the file is located, a failure to read or
    parse it, to resolve the field path, or to open it for writing leaves
    every file as it was; a failure in the middle of the write leaves in the
    file the part of the new text written so far, since the file is
    rewritten in place. *)
Theorem update_config_file_failure m platform cookie s config_file content :
  config_file_map m platform = Some config_file →
  files s !! config_file = Some content →
  (∀ fault,
      fault = ReadFails
      ∨ safe_load content = None
      ∨ (∃ cfg, safe_load content = Some cfg
                ∧ update_cookie cfg platform cookie = None)
      ∨ fault = OpenForWriteFails →
      (update_config_file m fault platform cookie s).1 = false
      ∧ files (update_config_file m fault platform cookie s).2 = files s)
  ∧ (∀ cfg cfg' k,
        safe_load content = Some cfg →
        update_cookie cfg platform cookie = Some cfg' →
        (update_config_file m (WriteFailsAfter k) platform cookie s).1 = false
        ∧ files (update_config_file m (WriteFailsAfter k) platform cookie s).2
          = <[config_file := Str.take k (dump cfg')]> (files s)).
Proof.
  intros Hmap Hfile. unfold update_config_file. rewrite Hmap, Hfile. split.
  - intros fault [-> | [Hload | [(cfg & Hload & Hupd) | ->]]].
    + done.
    + rewrite Hload. by destruct fault.
    + rewrite Hload, Hupd. by destruct fault.
    + destruct (safe_load content) as [cfg|]; [| done].
      by destruct (update_cookie cfg platform cookie).
  - intros cfg cfg' k Hload Hupd. by rewrite Hload, Hupd.
Qed.

(** C3, as the code has it: [refresh_all_cookies] leaves a platform that the
    mapping does not name without an entry in the result, with the cache
    entry and the stored time it had, and with its configuration file
    unwritten. *)
Theorem refresh_all_cookies_unmapped m envs s platform :
  platform ∉ keys (domain_mapping m) →
  let st := refresh_all_cookies m envs s in
  st.2 !! platform = None
  ∧ cache st.1.1 !! platform = cache m !! platform
  ∧ cache_timestamps st.1.1 !! platform = cache_timestamps m !! platform
  ∧ ∀ path, config_file_map m platform = Some path →
            files st.1.2 !! path = files s !! path
            ∧ ∃ evs, io_log st.1.2 = (evs ++ io_log s)%list ∧ IoWrite path ∉ evs.
Proof.
  intros Hp. unfold refresh_all_cookies.
  destruct (refresh_fold_frame envs (keys (domain_mapping m)) m s ∅)
    as (_ & Hframe & evs & Hlog & Hev).
  destruct (Hframe platform Hp) as (H1 & H2 & H3 & H4).
  cbv zeta. rewrite H1, H2, H3, lookup_empty. do 3 (split; [done |]).
  intros path Hpath. split; [by apply H4 |].
  exists evs. split; [done |]. intros Hin.
  destruct (Hev _ Hin) as (q & Hq & Hmap). simpl in Hmap.
  apply Hp. by rewrite (config_file_map_inj m platform q path).
Qed.

(** C6: the result map has an entry for each platform of the mapping and
    for no other; the entry of a platform is true exactly when its forced
    resolution returns a non-empty cookie string and the persist of that
    string succeeds, both read off the manager and the disk the loop started
    from, so that no other platform's turn bears on it. *)
Theorem refresh_all_cookies_results m envs s :
  NoDup (keys (domain_mapping m)) →
  let results := (refresh_all_cookies m envs s).2 in
  (∀ platform, platform ∉ keys (domain_mapping m) → results !! platform = None)
  ∧ (∀ platform,
        platform ∈ keys (domain_mapping m) →
        ∃ b, results !! platform = Some b
             ∧ (b = true
                ↔ ∃ cookie,
                    (get_cookies m (envs platform) platform true).1 = Some cookie
                    ∧ cookie ≠ ""
                    ∧ (update_config_file m (disk (envs platform)) platform
                         cookie s).1 = true)).
Proof.
  intros Hnd. cbv zeta. split.
  - intros platform Hp. unfold refresh_all_cookies.
    destruct (refresh_fold_frame envs (keys (domain_mapping m)) m s ∅)
      as (_ & Hframe & _).
    destruct (Hframe platform Hp) as [-> _]. apply lookup_empty.
  - intros platform Hp. unfold refresh_all_cookies.
    rewrite (refresh_fold_results envs _ m s Hnd m s ∅ (same_config_refl m))
      by done.
    eexists. split; [done |]. unfold turn_outcome.
    destruct (get_cookies m (envs platform) platform true).1 as [cookie|].
    + rewrite andb_true_iff. split.
      * intros [Hne Hok]. exists cookie. split; [done |].
        split; [by destruct cookie | done].
      * intros (c & [= <-] & Hne & Hok). split; [by destruct cookie | done].
    + split; [done | by intros (c & ? & _)].
Qed.

(** C10: for a platform other than [douyin], [tiktok] and [bilibili],
    [update_config_file] returns [False] and leaves the disk, its log of
    accesses included, as it was, whatever the loader and the printer; a
    refresh records [False] for such a platform when the mapping names it. *)
Theorem update_config_file_other_platform m envs s platform :
  platform ≠ "douyin" → platform ≠ "tiktok" → platform ≠ "bilibili" →
  (∀ fault cookie s', update_config_file m fault platform cookie s' = (false, s'))
  ∧ (platform ∈ keys (domain_mapping m) →
     (refresh_all_cookies m envs s).2 !! platform = Some false).
Proof.
  intros H1 H2 H3. split.
  - intros fault cookie s'. apply update_config_file_unknown.
    by apply config_file_map_None.
  - intros Hp. apply refresh_fold_unknown; [| by left].
    intros m'. by apply config_file_map_None.
Qed.

End PersistProps.

(** ** The properties on the sample data *)

Lemma update_config_file_failure_witness :
  (update_config_file Sample.load Sample.flow_dump Sample.fresh OpenForWriteFails
     "douyin" "sessionid=new" Sample.disk0).1 = false
  ∧ files (update_config_file Sample.load Sample.flow_dump Sample.fresh
             OpenForWriteFails "douyin" "sessionid=new" Sample.disk0).2
    = files Sample.disk0.
Proof.
  destruct (update_config_file_failure Sample.load Sample.flow_dump Sample.fresh
              "douyin" "sessionid=new" Sample.disk0 Sample.douyin_path
              Sample.douyin_doc) as [H _].
  - reflexivity.
  - vm_compute. reflexivity.
  - apply H. do 3 right. reflexivity.
Defined.

(** C1, as stated, fails: the disk gives out after twenty bytes of the new
    text, the call returns [False], and the file of [douyin] holds those
    twenty bytes instead of the document it held before. *)
Lemma update_config_file_torn_write :
  config_file_map Sample.fresh "douyin" = Some Sample.douyin_path
  ∧ files Sample.disk0 !! Sample.douyin_path = Some Sample.douyin_doc
  ∧ (update_config_file Sample.load Sample.flow_dump Sample.fresh
       (WriteFailsAfter 20) "douyin" "sessionid=new" Sample.disk0).1 = false
  ∧ files (update_config_file Sample.load Sample.flow_dump Sample.fresh
             (WriteFailsAfter 20) "douyin" "sessionid=new" Sample.disk0).2
    !! Sample.douyin_path = Some "{TokenManager: {douy".
Proof. repeat split; vm_compute; reflexivity. Qed.

Lemma refresh_all_cookies_unmapped_witness :
  cache (refresh_all_cookies Sample.load Sample.flow_dump Sample.only_douyin
           Sample.envs Sample.disk0).1.1 !! "bilibili" = None
  ∧ ∀ path,
      config_file_map Sample.only_douyin "bilibili" = Some path →
      files (refresh_all_cookies Sample.load Sample.flow_dump Sample.only_douyin
               Sample.envs Sample.disk0).1.2 !! path
      = files Sample.disk0 !! path.
Proof.
  assert (H : "bilibili" ∉ keys (domain_mapping Sample.only_douyin)).
  { apply dict_get_None. reflexivity. }
  destruct (refresh_all_cookies_unmapped Sample.load Sample.flow_dump
              Sample.only_douyin Sample.envs Sample.disk0 "bilibili" H)
    as (_ & H2 & _ & H4).
  split; [exact H2 |].
  intros path Hpath. exact (proj1 (H4 path Hpath)).
Defined.

(** C3, as stated, fails: with [douyin] alone in the mapping, a resolution
    of [bilibili] matches against [bilibili.com], returns the cookie string
    and caches it, and [update_config_file] writes the file of [bilibili]. *)
Lemma get_cookies_caches_unmapped :
  ("bilibili" ∉ keys (domain_mapping Sample.only_douyin))
  ∧ cache Sample.only_douyin !! "bilibili" = None
  ∧ (get_cookies Sample.only_douyin Sample.env_ok "bilibili" true).1
    = Some "SESSDATA=abc"
  ∧ cache (get_cookies Sample.only_douyin Sample.env_ok "bilibili" true).2
    !! "bilibili" = Some "SESSDATA=abc"
  ∧ (update_config_file Sample.load Sample.flow_dump Sample.only_douyin NoFault
       "bilibili" "SESSDATA=abc" Sample.disk0
     = (true,
        write_file Sample.bilibili_path
          "{TokenManager: {bilibili: {headers: {cookie: SESSDATA=abc}}}}"
          (touch (IoRead Sample.bilibili_path)
             (touch (IoExists Sample.bilibili_path) Sample.disk0)))).
Proof.
  split; [apply dict_get_None; reflexivity |].
  repeat split; vm_compute; reflexivity.
Qed.

Lemma refresh_all_cookies_results_witness :
  (refresh_all_cookies Sample.load Sample.flow_dump Sample.fresh Sample.envs
     Sample.disk0).2 !! "youtube" = None
  ∧ (refresh_all_cookies Sample.load Sample.flow_dump Sample.fresh Sample.envs
       Sample.disk0).2 !! "bilibili" = Some true.
Proof.
  assert (Hnd : NoDup (keys (domain_mapping Sample.fresh))).
  { apply (bool_decide_unpack _). vm_compute. exact I. }
  destruct (refresh_all_cookies_results Sample.load Sample.flow_dump Sample.fresh
              Sample.envs Sample.disk0 Hnd) as [Hout Hin].
  split.
  - apply Hout. apply dict_get_None. reflexivity.
  - destruct (Hin "bilibili") as (b & Hb & Hiff).
    + apply list_elem_of_In. simpl. tauto.
    + rewrite Hb. f_equal. apply Hiff. exists "SESSDATA=abc".
      split; [vm_compute; reflexivity |]. split; [discriminate |].
      vm_compute. reflexivity.
Defined.

Lemma update_config_file_other_platform_witness :
  (get_cookies Sample.with_youtube (Sample.envs "youtube") "youtube" true).1
  = Some "SID=y1"
  ∧ update_config_file Sample.load Sample.flow_dump Sample.with_youtube NoFault
      "youtube" "SID=y1" Sample.disk0 = (false, Sample.disk0)
  ∧ (refresh_all_cookies Sample.load Sample.flow_dump Sample.with_youtube
       Sample.envs Sample.disk0).2 !! "youtube" = Some false.
Proof.
  split; [vm_compute; reflexivity |].
  destruct (update_config_file_other_platform Sample.load Sample.flow_dump
              Sample.with_youtube Sample.envs Sample.disk0 "youtube")
    as [H1 H2]; [discriminate | discriminate | discriminate |].
  split; [apply H1 |].
  apply H2. apply list_elem_of_In. simpl. tauto.
Defined.

(** * Further properties of the manager *)

(** ** The matcher *)

(** Of the five clauses of the condition two decide: the target occurs in
    the record's domain put in lower case, or the target ends with that
    domain stripped of its leading dots.  The three equalities are instances
    of the first. *)
Theorem domain_match_two_clauses (t : string) (c : cookie) :
  domain_match t c = true
  ↔ (∃ a b, Str.lower (domain c) = a +:+ t +:+ b)
    ∨ (∃ a, t = a +:+ Str.lstrip_dot (Str.lower (domain c))).
Proof.
  unfold domain_match. cbv zeta. set (d := Str.lower (domain c)).
  rewrite !orb_true_iff, !String.eqb_eq, contains_spec, endswith_spec.
  split; [| tauto].
  intros [[[[H | H] | H] | H] | H]; [left | left | tauto | left | tauto].
  - exists "", "". by rewrite H, append_nil_r.
  - exists ".", "". by rewrite H, append_nil_r.
  - destruct (lstrip_dot_suffix d) as [a Ha]. exists a, "".
    by rewrite append_nil_r, <- H.
Qed.

(** A record whose domain is absent, empty or made of dots only is selected
    for every target. *)
Theorem domain_match_empty_domain (t : string) (c : cookie) :
  Str.lstrip_dot (Str.lower (domain c)) = "" →
  domain_match t c = true.
Proof.
  intros H. unfold domain_match. cbv zeta. rewrite H.
  apply orb_true_iff. right. apply endswith_spec. exists t.
  by rewrite append_nil_r.
Qed.

Lemma domain_match_empty_domain_witness :
  domain_match "douyin.com" (Cookie "sid" "1" "..") = true.
Proof. apply domain_match_empty_domain. reflexivity. Defined.

Lemma match_list_spec (t : string) (l : list item) (acc : list cookie) :
  match_list t l acc
  = (λ cs, (acc ++ List.filter (domain_match t) cs)%list) <$> cookies_of l.
Proof.
  revert acc. induction l as [|[c|] r IH]; intros acc; simpl.
  - by rewrite app_nil_r.
  - rewrite IH. destruct (cookies_of r) as [cs|]; simpl; [| done].
    destruct (domain_match t c); simpl; [by rewrite <- app_assoc | done].
  - done.
Qed.

Lemma cookies_of_app (l1 l2 : list item) :
  cookies_of (l1 ++ l2)
  = match cookies_of l1, cookies_of l2 with
    | Some a, Some b => Some (a ++ b)%list
    | _, _ => None
    end.
Proof.
  induction l1 as [|[c|] r IH]; simpl.
  - by destruct (cookies_of l2).
  - rewrite IH. by destruct (cookies_of r), (cookies_of l2).
  - done.
Qed.

Lemma match_all_spec (t : string) (d : list (string * entry)) (acc : list cookie) :
  match_all t d acc
  = (λ cs, (acc ++ List.filter (domain_match t) cs)%list)
      <$> cookies_of (visited_items d).
Proof.
  revert acc. induction d as [|[k e] r IH]; intros acc; simpl.
  - by rewrite app_nil_r.
  - destruct (String.eqb k "update_time"); simpl; [apply IH |].
    destruct e as [l|]; simpl; [| apply IH].
    rewrite cookies_of_app, match_list_spec.
    destruct (cookies_of l) as [a|]; simpl; [| done].
    rewrite IH. destruct (cookies_of (visited_items r)) as [b|]; simpl; [| done].
    by rewrite List.filter_app, app_assoc.
Qed.


(** ** The cache across calls *)

(** A call that finds no valid entry does what a forced call does. *)
Lemma get_cookies_miss_is_forced (m : manager) (e : env) (platform : string) :
  _is_cache_valid m (time_at_check e) platform = false →
  get_cookies m e platform false = get_cookies m e platform true.
Proof. intros H. unfold get_cookies. by rewrite H, !andb_false_r. Qed.

(** A forced call that returns a string has stored it under the platform,
    with the time of the store. *)
Lemma get_cookies_forced_Some (m : manager) (e : env) (platform c : string)
    (m' : manager) :
  get_cookies m e platform true = (Some c, m') →
  enabled m = true ∧ m' = store_cache m platform c (time_at_store e).
Proof.
  unfold get_cookies. destruct (enabled m); simpl; [| done].
  destruct (client_ready m); simpl; [| done].
  destruct (remote e) as [| | [|kv d]]; try done.
  destruct (match_all _ (kv :: d) []) as [[|c0 l]|]; try done.
  by intros [= <- <-].
Qed.

(** After a forced resolution has returned a string at time [t], a call
    that is not forced returns the same string, whatever the remote store
    does, as long as less than [cache_ttl] has passed since [t], and leaves
    the manager alone; from then on it does what a forced call does. *)
Theorem get_cookies_cached_until_ttl (m : manager) (e e' : env)
    (platform c : string) (m' : manager) :
  get_cookies m e platform true = (Some c, m') →
  (time_at_check e' - time_at_store e < cache_ttl m →
   get_cookies m' e' platform false = (Some c, m'))
  ∧ (cache_ttl m ≤ time_at_check e' - time_at_store e →
     get_cookies m' e' platform false = get_cookies m' e' platform true).
Proof.
  intros [Hen ->]%get_cookies_forced_Some. split.
  - intros Hlt. unfold get_cookies, _is_cache_valid. simpl.
    rewrite Hen, !lookup_insert_eq. simpl.
    by apply Z.ltb_lt in Hlt as ->.
  - intros Hge. apply get_cookies_miss_is_forced.
    unfold _is_cache_valid. simpl. rewrite lookup_insert_eq.
    by apply Z.ltb_ge.
Qed.

Lemma get_cookies_cached_until_ttl_witness :
  get_cookies (get_cookies Sample.fresh Sample.env_ok "douyin" true).2
    Sample.env_down "douyin" false
  = (Some "sessionid=s1", (get_cookies Sample.fresh Sample.env_ok "douyin" true).2).
Proof.
  refine (proj1 (get_cookies_cached_until_ttl Sample.fresh Sample.env_ok
                   Sample.env_down "douyin" "sessionid=s1" _ _) _).
  - vm_compute. reflexivity.
  - vm_compute. reflexivity.
Defined.

(** What a forced call returns does not depend on what the cache holds for
    the platform, however fresh. *)
Theorem get_cookies_forced_ignores_cache (m : manager) (e : env)
    (platform s : string) (t : Z) :
  (get_cookies (store_cache m platform s t) e platform true).1
  = (get_cookies m e platform true).1.
Proof. symmetry. apply get_cookies_forced_result. by repeat split. Qed.

(** When every matched record has an empty name or an empty value, the
    resolution succeeds with the empty string: it is returned and cached like
    any other. *)
Theorem get_cookies_empty_string (m : manager) (e : env) (platform : string)
    (d : list (string * entry)) (c : cookie) (l : list cookie) :
  enabled m = true → client_ready m = true →
  remote e = FetchData d →
  match_all (_get_domain_for_platform m platform) d [] = Some (c :: l) →
  List.filter keeps (c :: l) = [] →
  get_cookies m e platform true
  = (Some "", store_cache m platform "" (time_at_store e)).
Proof.
  intros Hen Hcl Hr Hm Hk. unfold get_cookies. rewrite Hen, Hcl, Hr. simpl.
  destruct d as [|kv d]; [done |]. rewrite Hm.
  assert (Hf : _format_cookies_for_requests (c :: l) = "").
  { unfold _format_cookies_for_requests. rewrite format_loop_spec, Hk. done. }
  by rewrite Hf.
Qed.

Lemma get_cookies_empty_string_witness :
  get_cookies Sample.fresh
    {| remote := FetchData [("x", EntryList [ItemCookie (Cookie "sid" "" "tiktok.com")])];
       time_at_check := 7; time_at_store := 8; disk := NoFault |}
    "tiktok" true
  = (Some "", store_cache Sample.fresh "tiktok" "" 8).
Proof.
  eapply get_cookies_empty_string; reflexivity.
Defined.

(** The two dictionaries of the cache keep the same keys through a
    resolution, and with the same keys a hit returns a string. *)
Theorem get_cookies_cache_consistent (m : manager) (e : env) (platform : string)
    (force_refresh : bool) :
  cache_consistent m →
  cache_consistent (get_cookies m e platform force_refresh).2
  ∧ (enabled m = true →
     _is_cache_valid m (time_at_check e) platform = true →
     ∃ c, get_cookies m e platform false = (Some c, m)).
Proof.
  intros Hc. split.
  - assert (Hs : ∀ c t, cache_consistent (store_cache m platform c t)).
    { intros c t p. unfold store_cache. simpl.
      destruct (decide (platform = p)) as [->|Hne].
      - by rewrite !lookup_insert_eq.
      - rewrite !lookup_insert_ne by done. apply Hc. }
    get_cookies_cases; apply Hs.
  - intros Hen Hv. unfold get_cookies. rewrite Hen, Hv. simpl.
    unfold _is_cache_valid in Hv.
    destruct (cache_timestamps m !! platform) as [t|] eqn:Ht; [| done].
    destruct (proj2 (Hc platform)) as [c Hcache]; [by rewrite Ht |].
    exists c. by rewrite Hcache.
Qed.

Lemma get_cookies_cache_consistent_witness :
  cache_consistent (get_cookies Sample.warm Sample.env_ok "bilibili" true).2.
Proof.
  apply get_cookies_cache_consistent.
  intros p. unfold Sample.warm, store_cache. simpl.
  destruct (decide ("douyin" = p)) as [<-|Hne].
  - by rewrite !lookup_insert_eq.
  - rewrite !lookup_insert_ne, !lookup_empty by done.
    split; intros [? ?]; discriminate.
Defined.

(** ** The status report, clearing the cache, and the client *)

Lemma get_cache_status_fold (m : manager) (now : Z) (clock : string → Z)
    (l : list string) (acc : gmap string cache_status) (p : string) :
  fold_left
    (λ status platform,
       <[platform := platform_status m now (clock platform) platform]> status)
    l acc !! p
  = if bool_decide (p ∈ l) then Some (platform_status m now (clock p) p)
    else acc !! p.
Proof.
  revert acc. induction l as [|q l IH]; intros acc; cbn [fold_left].
  - rewrite bool_decide_eq_false_2; [done | apply not_elem_of_nil].
  - rewrite IH. destruct (decide (p ∈ l)) as [Hin|Hnin].
    + rewrite !bool_decide_eq_true_2; [done | | done]. apply elem_of_cons. by right.
    + rewrite (bool_decide_eq_false_2 (p ∈ l)) by done.
      destruct (decide (p = q)) as [->|Hne].
      * rewrite bool_decide_eq_true_2 by (apply elem_of_cons; by left).
        apply lookup_insert_eq.
      * rewrite bool_decide_eq_false_2.
        -- by apply lookup_insert_ne.
        -- intros [?|?]%elem_of_cons; done.
Qed.

(** The report has an entry for each platform of the mapping and for no
    other, so a platform that was resolved and cached without being in the
    mapping is not reported; a mapped platform without a stored time is
    reported as not cached, with zeros. *)
Theorem get_cache_status_entries (m : manager) (now : Z) (clock : string → Z)
    (platform : string) :
  (platform ∉ keys (domain_mapping m) →
   get_cache_status m now clock !! platform = None)
  ∧ (platform ∈ keys (domain_mapping m) →
     get_cache_status m now clock !! platform
     = Some (platform_status m now (clock platform) platform)
     ∧ (cache_timestamps m !! platform = None →
        get_cache_status m now clock !! platform
        = Some (CacheStatus false 0 0 false None))).
Proof.
  unfold get_cache_status. rewrite get_cache_status_fold. split.
  - intros H. by rewrite bool_decide_eq_false_2.
  - intros H. rewrite bool_decide_eq_true_2 by done. split; [done |].
    intros Hn. unfold platform_status. by rewrite Hn.
Qed.

(** The remaining time of an entry is never negative, and an entry found
    invalid at the reading the report started from has none left. *)
Theorem platform_status_remaining (m : manager) (now validity_time : Z)
    (platform : string) :
  0 ≤ remaining_seconds (platform_status m now validity_time platform)
  ∧ (is_valid (platform_status m now now platform) = false →
     remaining_seconds (platform_status m now now platform) = 0).
Proof.
  unfold platform_status, _is_cache_valid.
  destruct (cache_timestamps m !! platform) as [t|]; simpl; [| done].
  split; [lia |]. intros H%Z.ltb_ge. lia.
Qed.

(** After the cache is cleared no entry is valid at any time: a call that
    is not forced does what a forced call does, which is what it did before
    the clearing, and the report shows every mapped platform as not
    cached. *)
Theorem clear_cookie_cache_spec (m : manager) (e : env) (platform : string) :
  get_cookies (clear_cookie_cache m) e platform false
  = get_cookies (clear_cookie_cache m) e platform true
  ∧ (get_cookies (clear_cookie_cache m) e platform true).1
    = (get_cookies m e platform true).1
  ∧ (∀ now clock,
        platform ∈ keys (domain_mapping m) →
        get_cache_status (clear_cookie_cache m) now clock !! platform
        = Some (CacheStatus false 0 0 false None)).
Proof.
  split; [| split].
  - apply get_cookies_miss_is_forced. unfold _is_cache_valid. simpl.
    by rewrite lookup_empty.
  - symmetry. apply get_cookies_forced_result. by repeat split.
  - intros now clock Hin. unfold get_cache_status. simpl.
    rewrite get_cache_status_fold. simpl.
    rewrite bool_decide_eq_true_2 by done.
    unfold platform_status. simpl. by rewrite lookup_empty.
Qed.

(** After [_init_client] the manager is enabled exactly when it has a
    client, and that is when the library is there, the configuration enables
    the feature, the three credentials are non-empty and the constructor
    returned. *)
Theorem init_client_enabled_iff (available enabled_before : bool)
    (cr : credentials) (constructed : bool) :
  (_init_client available enabled_before cr constructed).2
  = (_init_client available enabled_before cr constructed).1
  ∧ ((_init_client available enabled_before cr constructed).1 = true
     ↔ available = true ∧ enabled_before = true
       ∧ server_url cr ≠ "" ∧ uuid cr ≠ "" ∧ password cr ≠ ""
       ∧ constructed = true).
Proof.
  unfold _init_client.
  destruct available, enabled_before, constructed,
    (server_url cr) as [|a1 s1], (uuid cr) as [|a2 s2],
    (password cr) as [|a3 s3]; simpl;
    (split; [done |]); split; try done; intros (? & ? & ? & ? & ? & ?); done.
Qed.

(** ** The callers of the refresh *)

Lemma filter_length_all {A} (f : A → bool) (l : list A) :
  (length (List.filter f l) ≤ length l)%nat
  ∧ (length (List.filter f l) = length l ↔ ∀ x, x ∈ l → f x = true).
Proof.
  induction l as [|x l [IHle IHeq]]; simpl.
  - split; [lia |]. split; [by intros _ x ?%elem_of_nil | done].
  - destruct (f x) eqn:Hx; simpl.
    + split; [lia |]. split.
      * intros [= H] y [->|Hy]%elem_of_cons; [done | by apply IHeq].
      * intros H. f_equal. apply IHeq. intros y Hy. apply H, elem_of_cons. by right.
    + split; [lia |]. split; [lia |].
      intros H. rewrite H in Hx; [done |]. apply elem_of_cons. by left.
Qed.

(** The two counts agree exactly when no entry of the map is [False]. *)
Lemma counts_agree (results : gmap string bool) :
  Nat.eqb (success_count results) (total_count results) = true
  ↔ ∀ platform, results !! platform ≠ Some false.
Proof.
  unfold success_count, total_count.
  rewrite Nat.eqb_eq, (proj2 (filter_length_all _ _)). split.
  - intros H platform Hp. apply elem_of_map_to_list in Hp. by apply H in Hp.
  - intros H [k []] Hin; [done |]. apply elem_of_map_to_list in Hin. by apply H in Hin.
Qed.

Section CallerProps.

Variable safe_load : string → option yaml.
Variable dump : yaml → string.

Local Abbreviation update_config_file := (update_config_file safe_load dump).
Local Abbreviation refresh_step := (refresh_step safe_load dump).
Local Abbreviation refresh_all_cookies := (refresh_all_cookies safe_load dump).
Local Abbreviation turn_outcome := (turn_outcome safe_load dump).
Local Abbreviation service_refresh_all_cookies :=
  (service_refresh_all_cookies safe_load dump).
Local Abbreviation cli_refresh_step := (cli_refresh_step safe_load dump).
Local Abbreviation cli_run := (cli_run safe_load dump).
Local Abbreviation cli_refresh_cookies := (cli_refresh_cookies safe_load dump).
Local Abbreviation api_refresh_step := (api_refresh_step safe_load dump).
Local Abbreviation api_refresh_cookies := (api_refresh_cookies safe_load dump).

Lemma get_cookies_disabled m e platform force_refresh :
  enabled m = false → get_cookies m e platform force_refresh = (None, m).
Proof. intros H. unfold get_cookies. by rewrite H. Qed.

Lemma refresh_fold_disabled envs l m s r :
  enabled m = false →
  (fold_left (refresh_step envs) l (m, s, r)).1 = (m, s)
  ∧ ∀ p, p ∈ l → (fold_left (refresh_step envs) l (m, s, r)).2 !! p = Some false.
Proof.
  intros Hd. revert r. induction l as [|q l IH]; intros r; cbn [fold_left].
  { split; [done | by intros p ?%elem_of_nil]. }
  assert (Hstep : refresh_step envs (m, s, r) q = (m, s, <[q := false]> r)).
  { unfold refresh_step. by rewrite get_cookies_disabled. }
  rewrite Hstep. destruct (IH (<[q := false]> r)) as [H1 H2]. split; [done |].
  intros p Hp. destruct (decide (p ∈ l)) as [Hin|Hnin]; [by apply H2 |].
  apply elem_of_cons in Hp as [->|?]; [| done].
  destruct (refresh_fold_frame safe_load dump envs l m s (<[q := false]> r))
    as (_ & Hframe & _).
  destruct (Hframe q Hnin) as [-> _]. apply lookup_insert_eq.
Qed.

(** A disabled manager is inert: every resolution returns [None] and
    leaves it as it was, and a refresh of all platforms records [False] for
    each of them without a change to the cache or to the disk. *)
Theorem disabled_manager_inert m envs s :
  enabled m = false →
  (∀ e platform force_refresh,
      get_cookies m e platform force_refresh = (None, m))
  ∧ (refresh_all_cookies m envs s).1 = (m, s)
  ∧ (∀ platform,
        platform ∈ keys (domain_mapping m) →
        (refresh_all_cookies m envs s).2 !! platform = Some false)
  ∧ service_refresh_all_cookies m envs s = (false, (m, s)).
Proof.
  intros Hd. split; [by intros; apply get_cookies_disabled |].
  destruct (refresh_fold_disabled envs (keys (domain_mapping m)) m s ∅ Hd)
    as [H1 H2].
  split; [done |]. split; [done |].
  unfold service_refresh_all_cookies. by rewrite Hd.
Qed.

(** With each platform of the mapping listed once, the service reports
    success exactly when the manager is enabled and the turn of every mapped
    platform succeeds; with an empty mapping that is a success without any
    work. *)
Theorem service_refresh_success m envs s :
  NoDup (keys (domain_mapping m)) →
  (service_refresh_all_cookies m envs s).1 = true
  ↔ enabled m = true
    ∧ ∀ platform,
        platform ∈ keys (domain_mapping m) →
        turn_outcome m (envs platform) platform s = true.
Proof.
  intros Hnd. unfold service_refresh_all_cookies.
  destruct (enabled m) eqn:Hen; simpl; [| by split; [| intros []]].
  rewrite counts_agree.
  assert (Hres : ∀ p, p ∈ keys (domain_mapping m) →
                 (refresh_all_cookies m envs s).2 !! p
                 = Some (turn_outcome m (envs p) p s)).
  { intros p Hp. unfold refresh_all_cookies.
    by apply (refresh_fold_results safe_load dump envs _ m s Hnd m s ∅
                (same_config_refl m)). }
  assert (Hout : ∀ p, p ∉ keys (domain_mapping m) →
                 (refresh_all_cookies m envs s).2 !! p = None).
  { intros p Hp. unfold refresh_all_cookies.
    destruct (refresh_fold_frame safe_load dump envs (keys (domain_mapping m)) m s ∅)
      as (_ & Hframe & _).
    destruct (Hframe p Hp) as [-> _]. apply lookup_empty. }
  split.
  - intros H. split; [done |]. intros p Hp. specialize (H p).
    rewrite Hres in H by done. by destruct (turn_outcome m (envs p) p s).
  - intros [_ H] p. destruct (decide (p ∈ keys (domain_mapping m))) as [Hp|Hp].
    + rewrite Hres, H by done. done.
    + by rewrite Hout.
Qed.

(** A mapping that names a platform other than [douyin], [tiktok] and
    [bilibili] makes the service report a failure on every run. *)
Theorem service_refresh_unsupported m envs s platform :
  platform ∈ keys (domain_mapping m) →
  platform ≠ "douyin" → platform ≠ "tiktok" → platform ≠ "bilibili" →
  (service_refresh_all_cookies m envs s).1 = false.
Proof.
  intros Hp H1 H2 H3. unfold service_refresh_all_cookies.
  destruct (enabled m); simpl; [| done].
  apply not_true_is_false. rewrite counts_agree. intros H. apply (H platform).
  apply refresh_fold_unknown; [| by left].
  intros m'. by apply config_file_map_None.
Qed.

End CallerProps.

Lemma service_refresh_success_witness :
  (service_refresh_all_cookies Sample.load Sample.flow_dump Sample.fresh
     Sample.envs Sample.disk0).1 = true
  ↔ enabled Sample.fresh = true
    ∧ ∀ platform,
        platform ∈ keys (domain_mapping Sample.fresh) →
        turn_outcome Sample.load Sample.flow_dump Sample.fresh
          (Sample.envs platform) platform Sample.disk0 = true.
Proof.
  apply service_refresh_success.
  apply (bool_decide_unpack _). vm_compute. exact I.
Defined.

Lemma service_refresh_unsupported_witness :
  (service_refresh_all_cookies Sample.load Sample.flow_dump Sample.with_youtube
     (λ _, Sample.env_ok) Sample.disk0).1 = false.
Proof.
  apply (service_refresh_unsupported Sample.load Sample.flow_dump
           Sample.with_youtube (λ _, Sample.env_ok) Sample.disk0 "youtube");
    [apply list_elem_of_In; simpl; tauto | discriminate..].
Defined.

Lemma disabled_manager_inert_witness :
  service_refresh_all_cookies Sample.load Sample.flow_dump
    {| project_root := "/srv/api"; enabled := false; cache_ttl := 3600;
       domain_mapping := Sample.mapping; client_ready := false;
       cache := ∅; cache_timestamps := ∅ |}
    Sample.envs Sample.disk0
  = (false,
     ({| project_root := "/srv/api"; enabled := false; cache_ttl := 3600;
         domain_mapping := Sample.mapping; client_ready := false;
         cache := ∅; cache_timestamps := ∅ |},
      Sample.disk0)).
Proof. apply disabled_manager_inert. reflexivity. Defined.

(** ** The command line and the endpoint *)

Lemma dict_get_is_Some {A} (key : string) (d : list (string * A)) :
  key ∈ keys d → is_Some (dict_get key d).
Proof.
  intros H. destruct (dict_get key d) eqn:Hd; [done |].
  by apply dict_get_None in Hd.
Qed.

Section InterfaceProps.

Variable safe_load : string → option yaml.
Variable dump : yaml → string.

Local Abbreviation update_config_file := (update_config_file safe_load dump).
Local Abbreviation refresh_step := (refresh_step safe_load dump).
Local Abbreviation refresh_all_cookies := (refresh_all_cookies safe_load dump).
Local Abbreviation service_refresh_all_cookies :=
  (service_refresh_all_cookies safe_load dump).
Local Abbreviation cli_refresh_step := (cli_refresh_step safe_load dump).
Local Abbreviation cli_run := (cli_run safe_load dump).
Local Abbreviation cli_refresh_cookies := (cli_refresh_cookies safe_load dump).
Local Abbreviation api_refresh_step := (api_refresh_step safe_load dump).
Local Abbreviation api_refresh_cookies := (api_refresh_cookies safe_load dump).

(** On a mapped platform the loop of the command line has the body of the
    loop of [refresh_all_cookies]. *)
Lemma cli_refresh_step_mapped m s r platform e :
  is_Some (dict_get platform (domain_mapping m)) →
  cli_refresh_step (m, s, r) (platform, e)
  = refresh_step (λ _, e) (m, s, r) platform.
Proof. intros [d Hd]. unfold cli_refresh_step, refresh_step. by rewrite Hd. Qed.

Lemma cli_refresh_step_unmapped m s r platform e :
  dict_get platform (domain_mapping m) = None →
  cli_refresh_step (m, s, r) (platform, e) = (m, s, <[platform := false]> r).
Proof. intros Hd. unfold cli_refresh_step. by rewrite Hd. Qed.

Lemma cli_fold_keys envs l m0 :
  (∀ p, p ∈ l → is_Some (dict_get p (domain_mapping m0))) →
  ∀ m s r,
    domain_mapping m = domain_mapping m0 →
    fold_left cli_refresh_step (List.map (λ p, (p, envs p)) l) (m, s, r)
    = fold_left (refresh_step envs) l (m, s, r).
Proof.
  induction l as [|q l IH]; intros Hl m s r Hm; [done |].
  cbn [List.map fold_left].
  rewrite cli_refresh_step_mapped
    by (rewrite Hm; apply Hl, elem_of_cons; by left).
  assert (Hsame : refresh_step (λ _, envs q) (m, s, r) q
                  = refresh_step envs (m, s, r) q) by done.
  rewrite Hsame.
  destruct (refresh_step_spec safe_load dump envs m s r q) as ((_ & _ & _ & Hd & _) & _).
  destruct (refresh_step envs (m, s, r) q) as [[m1 s1] r1]. simpl in Hd.
  apply IH; [| congruence].
  intros p Hp. apply Hl, elem_of_cons. by right.
Qed.

(** Asked for all platforms, the command line leaves the manager, the disk
    and the result map as [refresh_all_cookies] does, and returns the flag of
    the refresh service. *)
Theorem cli_refresh_all_agrees m platforms envs s :
  enabled m = true →
  cli_refresh_cookies m platforms true envs s
  = ((service_refresh_all_cookies m envs s).1, refresh_all_cookies m envs s).
Proof.
  intros Hen.
  unfold cli_refresh_cookies, service_refresh_all_cookies, cli_run,
    refresh_all_cookies.
  rewrite Hen. simpl.
  rewrite (cli_fold_keys envs _ m);
    [done | intros p; apply dict_get_is_Some | done].
Qed.

Lemma cli_fold_frame turns m0 platform :
  platform ∉ keys (domain_mapping m0) →
  ∀ m s r,
    same_config m0 m →
    let st := fold_left cli_refresh_step turns (m, s, r) in
    cache st.1.1 !! platform = cache m !! platform
    ∧ cache_timestamps st.1.1 !! platform = cache_timestamps m !! platform
    ∧ (∀ path, config_file_map m0 platform = Some path →
               files st.1.2 !! path = files s !! path)
    ∧ st.2 !! platform
      = if bool_decide (platform ∈ turns.*1) then Some false else r !! platform.
Proof.
  intros Hp. apply dict_get_None in Hp.
  induction turns as [|[q e] turns IH]; intros m s r Hcfg; cbn [fold_left].
  { rewrite bool_decide_eq_false_2; [done | apply not_elem_of_nil]. }
  assert (Hmap : domain_mapping m = domain_mapping m0) by (symmetry; apply Hcfg).
  assert (Hroot : ∀ p, config_file_map m p = config_file_map m0 p).
  { intros p. apply config_file_map_root. symmetry. apply Hcfg. }
  destruct (dict_get q (domain_mapping m)) as [d|] eqn:Hq.
  - assert (Hne : platform ≠ q) by (intros ->; congruence).
    rewrite cli_refresh_step_mapped by (by rewrite Hq).
    destruct (refresh_step_spec safe_load dump (λ _, e) m s r q)
      as (Hcfg1 & Hr & Hcache & Hfiles & _).
    destruct (refresh_step (λ _, e) (m, s, r) q) as [[m1 s1] r1]. simpl in *.
    destruct (IH m1 s1 r1) as (H1 & H2 & H3 & H4);
      [by eapply same_config_trans |].
    destruct (Hcache platform Hne) as [H5 H6].
    rewrite H1, H2, H5, H6. do 2 (split; [done |]). split.
    + intros path Hpath. rewrite H3 by done. apply Hfiles.
      rewrite Hroot. intros Hq'. apply Hne.
      by apply (config_file_map_inj m0 platform q path).
    + rewrite H4, Hr, lookup_insert_ne by done.
      destruct (decide (platform ∈ turns.*1)) as [Hin|Hnin].
      * rewrite !bool_decide_eq_true_2; [done | | done].
        apply elem_of_cons. by right.
      * rewrite !bool_decide_eq_false_2; [done | | done].
        intros [?|?]%elem_of_cons; done.
  - rewrite cli_refresh_step_unmapped by done.
    destruct (IH m s (<[q := false]> r) Hcfg) as (H1 & H2 & H3 & H4).
    do 3 (split; [done |]). rewrite H4, fmap_cons.
    destruct (decide (platform ∈ turns.*1)) as [Hin|Hnin].
    + rewrite !bool_decide_eq_true_2; [done | | done].
      apply elem_of_cons. by right.
    + rewrite (bool_decide_eq_false_2 (platform ∈ turns.*1)) by done.
      destruct (decide (platform = q)) as [->|Hne].
      * rewrite bool_decide_eq_true_2 by (apply elem_of_cons; by left).
        apply lookup_insert_eq.
      * rewrite bool_decide_eq_false_2, lookup_insert_ne; [done | done |].
        intros [?|?]%elem_of_cons; done.
Qed.

(** The command line guards the mapping: whatever platforms it is given, a
    platform that the mapping does not name keeps its cache entry, its stored
    time and its configuration file, and naming it makes its entry, and the
    returned flag, [False]. *)
Theorem cli_refresh_unmapped m turns s platform :
  platform ∉ keys (domain_mapping m) →
  let run := cli_run m turns s in
  cache run.2.1.1 !! platform = cache m !! platform
  ∧ cache_timestamps run.2.1.1 !! platform = cache_timestamps m !! platform
  ∧ (∀ path, config_file_map m platform = Some path →
             files run.2.1.2 !! path = files s !! path)
  ∧ (platform ∈ turns.*1 →
     run.2.2 !! platform = Some false ∧ run.1 = false).
Proof.
  intros Hp. cbv zeta. unfold cli_run. simpl.
  destruct (cli_fold_frame turns m platform Hp m s ∅ (same_config_refl m))
    as (H1 & H2 & H3 & H4).
  do 3 (split; [done |]). intros Hin.
  rewrite bool_decide_eq_true_2 in H4 by done. split; [done |].
  apply not_true_is_false. rewrite counts_agree. intros H. by apply (H platform).
Qed.

End InterfaceProps.

Lemma cli_refresh_all_agrees_witness :
  cli_refresh_cookies Sample.load Sample.flow_dump Sample.fresh None true
    Sample.envs Sample.disk0
  = ((service_refresh_all_cookies Sample.load Sample.flow_dump Sample.fresh
        Sample.envs Sample.disk0).1,
     refresh_all_cookies Sample.load Sample.flow_dump Sample.fresh Sample.envs
       Sample.disk0).
Proof. apply cli_refresh_all_agrees. reflexivity. Defined.

Lemma cli_refresh_unmapped_witness :
  cache (cli_run Sample.load Sample.flow_dump Sample.only_douyin
           [("bilibili", Sample.env_ok); ("douyin", Sample.env_ok)]
           Sample.disk0).2.1.1 !! "bilibili" = None
  ∧ (cli_run Sample.load Sample.flow_dump Sample.only_douyin
       [("bilibili", Sample.env_ok); ("douyin", Sample.env_ok)]
       Sample.disk0).1 = false.
Proof.
  assert (H : "bilibili" ∉ keys (domain_mapping Sample.only_douyin)).
  { apply dict_get_None. reflexivity. }
  destruct (cli_refresh_unmapped Sample.load Sample.flow_dump Sample.only_douyin
              [("bilibili", Sample.env_ok); ("douyin", Sample.env_ok)]
              Sample.disk0 "bilibili" H) as (H1 & _ & _ & H4).
  split; [exact H1 |].
  apply H4. apply list_elem_of_In. simpl. tauto.
Defined.

Section EndpointProps.

Variable safe_load : string → option yaml.
Variable dump : yaml → string.

Local Abbreviation update_config_file := (update_config_file safe_load dump).
Local Abbreviation api_refresh_step := (api_refresh_step safe_load dump).
Local Abbreviation api_refresh_cookies := (api_refresh_cookies safe_load dump).

Lemma api_refresh_step_frame force_refresh m s r n q e platform :
  platform ≠ q →
  let st := api_refresh_step force_refresh (m, s, r, n) (q, e) in
  same_config m st.1.1.1
  ∧ cache st.1.1.1 !! platform = cache m !! platform
  ∧ cache_timestamps st.1.1.1 !! platform = cache_timestamps m !! platform
  ∧ (∀ path, config_file_map m platform = Some path →
             files st.1.1.2 !! path = files s !! path)
  ∧ st.1.2 !! platform = r !! platform.
Proof.
  intros Hne.
  pose proof (get_cookies_same_config m e q force_refresh) as Hcfg.
  pose proof (get_cookies_cache_other m e q platform force_refresh Hne) as [Hc Ht].
  unfold api_refresh_step.
  destruct (get_cookies m e q force_refresh) as [[cookie|] m'];
    simpl in Hcfg, Hc, Ht |- *.
  2:{ rewrite lookup_insert_ne by done. done. }
  destruct (Str.nonempty cookie); simpl.
  2:{ rewrite lookup_insert_ne by done. done. }
  pose proof (update_config_file_footprint safe_load dump m' (disk e) q cookie s)
    as [Hfiles _].
  rewrite (config_file_map_root m' m q) in Hfiles by (symmetry; apply Hcfg).
  destruct (update_config_file m' (disk e) q cookie s) as [ok s'].
  simpl in Hfiles |- *. rewrite lookup_insert_ne by done.
  do 3 (split; [done |]). split; [| done].
  intros path Hpath. apply Hfiles. intros Hq. apply Hne.
  by apply (config_file_map_inj m platform q path).
Qed.

Lemma api_fold_frame force_refresh turns m0 platform :
  (∀ turn, turn ∈ turns → turn.1 ≠ platform) →
  ∀ m s r n,
    same_config m0 m →
    let st := fold_left (api_refresh_step force_refresh) turns (m, s, r, n) in
    cache st.1.1.1 !! platform = cache m !! platform
    ∧ cache_timestamps st.1.1.1 !! platform = cache_timestamps m !! platform
    ∧ (∀ path, config_file_map m0 platform = Some path →
               files st.1.1.2 !! path = files s !! path)
    ∧ st.1.2 !! platform = r !! platform.
Proof.
  induction turns as [|[q e] turns IH]; intros Hturns m s r n Hcfg;
    cbn [fold_left]; [done |].
  assert (Hne : platform ≠ q).
  { intros ->. by apply (Hturns (q, e)); [apply elem_of_cons; left |]. }
  destruct (api_refresh_step_frame force_refresh m s r n q e platform Hne)
    as (Hcfg1 & H1 & H2 & H3 & H4).
  destruct (api_refresh_step force_refresh (m, s, r, n) (q, e))
    as [[[m1 s1] r1] n1]. simpl in *.
  destruct (IH (λ t Ht, Hturns t (proj2 (elem_of_cons _ _ _) (or_intror Ht)))
              m1 s1 r1 n1) as (H5 & H6 & H7 & H8);
    [by eapply same_config_trans |].
  rewrite H5, H6, H8, H1, H2, H4. do 2 (split; [done |]). split; [| done].
  intros path Hpath. rewrite H7 by done. apply H3.
  by rewrite (config_file_map_root m m0) by (symmetry; apply Hcfg).
Qed.

(** The endpoint guards the mapping: whatever the request, a platform that
    the mapping does not name keeps its cache entry, its stored time and its
    configuration file and gets no entry in the results; a request that names
    it is answered with a failure and empty results, and nothing is done for
    the other platforms it names. *)
Theorem api_refresh_unmapped m platforms force_refresh envs s platform :
  platform ∉ keys (domain_mapping m) →
  let out := api_refresh_cookies m platforms force_refresh envs s in
  cache out.2.1 !! platform = cache m !! platform
  ∧ cache_timestamps out.2.1 !! platform = cache_timestamps m !! platform
  ∧ (∀ path, config_file_map m platform = Some path →
             files out.2.2 !! path = files s !! path)
  ∧ out.1.2 !! platform = None
  ∧ (platform ∈ platforms.*1 → out = ((false, ∅), (m, s))).
Proof.
  intros Hp. cbv zeta. unfold api_refresh_cookies.
  destruct (enabled m); simpl; [| done].
  pose proof Hp as Hnone. apply dict_get_None in Hnone.
  destruct platforms as [|turn platforms].
  - destruct (api_fold_frame force_refresh
                (List.map (λ p, (p, envs p)) (keys (domain_mapping m))) m platform)
      with (m := m) (s := s) (r := (∅ : gmap string bool)) (n := 0%nat)
      as (H1 & H2 & H3 & H4); [| apply same_config_refl |].
    + intros t [q [-> Hq]]%list_elem_of_fmap. simpl. by intros ->.
    + simpl. rewrite H1, H2, H4. do 3 (split; [done |]).
      split; [done | by intros ?%elem_of_nil].
  - destruct (forallb _ (turn :: platforms)) eqn:Hall.
    + assert (Hturns : ∀ t, t ∈ turn :: platforms → t.1 ≠ platform).
      { intros t Ht Heq. rewrite forallb_forall in Hall.
        apply list_elem_of_In, Hall, bool_decide_eq_true in Ht.
        rewrite Heq, Hnone in Ht. by destruct Ht. }
      destruct (api_fold_frame force_refresh (turn :: platforms) m platform Hturns
                  m s ∅ 0%nat (same_config_refl m)) as (H1 & H2 & H3 & H4).
      assert (Hnotin : platform ∉ (turn :: platforms).*1).
      { intros [t [Heq Ht]]%list_elem_of_fmap. by destruct (Hturns t Ht). }
      simpl. simpl in H1, H2, H3, H4. rewrite H1, H2, H4.
      do 3 (split; [done |]). split; [done |].
      intros Hin. destruct Hnotin. exact Hin.
    + simpl. done.
Qed.

(** With [force_refresh] false, as a request has it by default, the endpoint
    does not ask the remote store for a platform whose entry is valid: it
    persists the cached string again. *)
Theorem api_refresh_step_cached m s r n platform e c :
  enabled m = true →
  _is_cache_valid m (time_at_check e) platform = true →
  cache m !! platform = Some c →
  c ≠ "" →
  api_refresh_step false (m, s, r, n) (platform, e)
  = (m, (update_config_file m (disk e) platform c s).2,
     <[platform := (update_config_file m (disk e) platform c s).1]> r,
     if (update_config_file m (disk e) platform c s).1 then S n else n).
Proof.
  intros Hen Hv Hc Hne. unfold api_refresh_step, get_cookies.
  rewrite Hen, Hv, Hc. simpl.
  destruct c; [done |]. simpl.
  by destruct (update_config_file m (disk e) platform _ s).
Qed.

End EndpointProps.

Lemma api_refresh_unmapped_witness :
  api_refresh_cookies Sample.load Sample.flow_dump Sample.only_douyin
    [("douyin", Sample.env_ok); ("bilibili", Sample.env_ok)] true Sample.envs
    Sample.disk0
  = ((false, ∅), (Sample.only_douyin, Sample.disk0)).
Proof.
  assert (H : "bilibili" ∉ keys (domain_mapping Sample.only_douyin)).
  { apply dict_get_None. reflexivity. }
  apply (api_refresh_unmapped Sample.load Sample.flow_dump Sample.only_douyin
           [("douyin", Sample.env_ok); ("bilibili", Sample.env_ok)] true
           Sample.envs Sample.disk0 "bilibili" H).
  apply list_elem_of_In. simpl. tauto.
Defined.

Lemma api_refresh_step_cached_witness :
  api_refresh_step Sample.load Sample.flow_dump false
    (Sample.warm, Sample.disk0, ∅, 0%nat)
    ("douyin",
     {| remote := FetchRaises; time_at_check := 1200; time_at_store := 1201;
        disk := NoFault |})
  = (Sample.warm,
     (update_config_file Sample.load Sample.flow_dump Sample.warm NoFault
        "douyin" "sessionid=old" Sample.disk0).2,
     <["douyin" := (update_config_file Sample.load Sample.flow_dump Sample.warm
                      NoFault "douyin" "sessionid=old" Sample.disk0).1]> ∅,
     if (update_config_file Sample.load Sample.flow_dump Sample.warm NoFault
           "douyin" "sessionid=old" Sample.disk0).1 then 1%nat else 0%nat).
Proof.
  apply (api_refresh_step_cached Sample.load Sample.flow_dump Sample.warm
           Sample.disk0 ∅ 0%nat "douyin"
           {| remote := FetchRaises; time_at_check := 1200; time_at_store := 1201;
              disk := NoFault |} "sessionid=old").
  - reflexivity.
  - vm_compute. reflexivity.
  - apply lookup_insert_eq.
  - discriminate.
Defined.

(** ** The configuration dictionary and the crawler mixin *)

Lemma dict_get_set_eq {A} (key : string) (v : A) (d : list (string * A)) :
  dict_get key (dict_set key v d) = Some v.
Proof.
  induction d as [|[k x] r IH]; simpl.
  - by rewrite String.eqb_refl.
  - destruct (String.eqb k key) eqn:Hk; simpl; by rewrite Hk.
Qed.



(** What [set_header] needs, and what it builds. *)
Lemma set_header_inv (cfg cfg' : yaml) (platform field cookie : string) :
  set_header cfg platform field cookie = Some cfg' →
  ∃ l tm pf headers,
    cfg = YMap l
    ∧ dict_get "TokenManager" l = Some (YMap tm)
    ∧ dict_get platform tm = Some (YMap pf)
    ∧ dict_get "headers" pf = Some (YMap headers)
    ∧ cfg'
      = YMap (dict_set "TokenManager"
                (YMap (dict_set platform
                         (YMap (dict_set "headers"
                                  (YMap (dict_set field (YStr cookie) headers))
                                  pf))
                         tm))
                l).
Proof.
  unfold set_header. destruct cfg as [| | | | |l]; try done. simpl.
  destruct (dict_get "TokenManager" l) as [[| | | | |tm]|] eqn:H1; try done. simpl.
  destruct (dict_get platform tm) as [[| | | | |pf]|] eqn:H2; try done. simpl.
  destruct (dict_get "headers" pf) as [[| | | | |headers]|] eqn:H3; try done. simpl.
  intros [= <-]. by exists l, tm, pf, headers.
Qed.

Lemma update_cookie_inv (cfg cfg' : yaml) (platform cookie : string) :
  update_cookie cfg platform cookie = Some cfg' →
  (platform ≠ "douyin" ∧ platform ≠ "tiktok" ∧ platform ≠ "bilibili" ∧ cfg' = cfg)
  ∨ ((platform = "douyin" ∨ platform = "tiktok" ∨ platform = "bilibili")
     ∧ set_header cfg platform (cookie_key platform) cookie = Some cfg').
Proof.
  unfold update_cookie.
  destruct (String.eqb_spec platform "douyin") as [->|?]; [right; tauto |].
  destruct (String.eqb_spec platform "tiktok") as [->|?]; [right; tauto |].
  destruct (String.eqb_spec platform "bilibili") as [->|?]; [right; tauto |].
  intros [= <-]. by left.
Qed.

Lemma fallback_cookie_of_chain (config : yaml) (platform : string) :
  platform = "douyin" ∨ platform = "tiktok" ∨ platform = "bilibili" →
  fallback_cookie_of config platform
  = match
      tm ← py_get config "TokenManager" (YMap []);
      pf ← py_get tm platform (YMap []);
      headers ← py_get pf "headers" (YMap []);
      py_get headers (cookie_key platform) (YStr "")
    with
    | Some v => v
    | None => YStr ""
    end.
Proof. by intros [-> | [-> | ->]]. Qed.

Lemma fallback_cookie_after_update_gen (cfg cfg' : yaml)
    (platform cookie : string) :
  platform = "douyin" ∨ platform = "tiktok" ∨ platform = "bilibili" →
  update_cookie cfg platform cookie = Some cfg' →
  fallback_cookie_of cfg' platform = YStr cookie.
Proof.
  intros Hp [(H1 & H2 & H3 & _) | [_ Hset]]%update_cookie_inv.
  { destruct Hp as [? | [? | ?]]; done. }
  apply set_header_inv in Hset as (l & tm & pf & headers & -> & _ & _ & _ & ->).
  rewrite fallback_cookie_of_chain by done. simpl.
  by rewrite !dict_get_set_eq; simpl; rewrite !dict_get_set_eq; simpl;
    rewrite !dict_get_set_eq; simpl; rewrite !dict_get_set_eq.
Qed.

(** What [update_config_file] puts in the configuration is what the crawler
    reads back as its fallback cookie. *)
Theorem fallback_cookie_after_update (cfg cfg' : yaml) (platform cookie : string) :
  platform = "douyin" ∨ platform = "tiktok" ∨ platform = "bilibili" →
  update_cookie cfg platform cookie = Some cfg' →
  fallback_cookie_of cfg' platform = YStr cookie.
Proof. apply fallback_cookie_after_update_gen. Qed.

Lemma fallback_cookie_after_update_witness :
  fallback_cookie_of
    (YMap [("TokenManager",
            YMap [("bilibili",
                   YMap [("headers", YMap [("cookie", YStr "SESSDATA=new")])])])])
    "bilibili"
  = YStr "SESSDATA=new".
Proof.
  apply (fallback_cookie_after_update Sample.bilibili_config); [tauto | reflexivity].
Defined.



Lemma dict_set_nonempty {A} (key : string) (v : A) (d : list (string * A)) :
  dict_set key v d ≠ [].
Proof. destruct d as [|[k x] r]; simpl; [done |]. by destruct (String.eqb k key). Qed.

Lemma read_platform_inv (config : yaml) (platform : string)
    (fields : list string) (cookie_field : string)
    (base : list (string * yaml)) (fallback : yaml) (px : list (string * yaml)) :
  read_platform config platform fields cookie_field = inr (base, fallback, px) →
  ∃ pc, subscript2 config "TokenManager" platform = inr pc
        ∧ subscript2 pc "headers" cookie_field = inr fallback.
Proof.
  unfold read_platform, and_then.
  destruct (subscript2 config "TokenManager" platform) as [?|pc] eqn:H1; [done |].
  destruct (read_headers pc fields) as [?|b]; [done |].
  destruct (subscript2 pc "headers" cookie_field) as [?|f] eqn:H2; [done |].
  destruct (subscript2 pc "proxies" "http") as [?|h1]; [done |].
  destruct (subscript2 pc "proxies" "https") as [?|h2]; [done |].
  intros [= <- <- <-]. by exists pc.
Qed.

Lemma enhanced_headers_from_read (m : manager) (e : env) (config : yaml)
    (platform : string) (h px : list (string * yaml)) (m' : manager) :
  enhanced_headers_from m e config platform = (HeadersReturned h px, m') →
  h ≠ [] →
  ∃ fields base fallback,
    read_platform config platform fields (cookie_key platform)
    = inr (base, fallback, px)
    ∧ (HeadersReturned h px, m')
      = (let '(dynamic_cookie, m1) :=
           if enabled m then get_cookies m e platform false else (None, m) in
         (HeadersReturned
            (dict_set (cookie_key platform)
               match dynamic_cookie with
               | Some c => if Str.nonempty c then YStr c else fallback
               | None => fallback
               end base) px, m1)).
Proof.
  unfold enhanced_headers_from.
  destruct (py_truthy config); simpl; [| by intros [= <- <- <-]].
  destruct (String.eqb_spec platform "douyin") as [->|?].
  { destruct (read_platform config "douyin" douyin_fields "Cookie")
      as [[|]|[[base fb] px']] eqn:Hr; try by intros [= <- <- <-].
    intros H Hne. exists douyin_fields, base, fb.
    assert (px' = px) as ->; [| done].
    destruct (enabled m); [destruct (get_cookies m e "douyin" false) |];
      by injection H. }
  destruct (String.eqb_spec platform "tiktok") as [->|?].
  { destruct (read_platform config "tiktok" tiktok_fields "Cookie")
      as [[|]|[[base fb] px']] eqn:Hr; try by intros [= <- <- <-].
    intros H Hne. exists tiktok_fields, base, fb.
    assert (px' = px) as ->; [| done].
    destruct (enabled m); [destruct (get_cookies m e "tiktok" false) |];
      by injection H. }
  destruct (String.eqb_spec platform "bilibili") as [->|?].
  { destruct (read_platform config "bilibili" bilibili_fields "cookie")
      as [[|]|[[base fb] px']] eqn:Hr; try by intros [= <- <- <-].
    intros H Hne. exists bilibili_fields, base, fb.
    assert (px' = px) as ->; [| done].
    destruct (enabled m); [destruct (get_cookies m e "bilibili" false) |];
      by injection H. }
  by intros [= <- <- <-].
Qed.

(** When [get_enhanced_headers] returns headers, the cookie among them is
    the string that [get_cookies], not forced, returns if the manager is
    enabled and that string is not empty, and the cookie of the configuration
    file in every other case; a disabled manager is not called. *)
Theorem enhanced_headers_cookie (m : manager) (e : env) (config : yaml)
    (platform : string) (h px : list (string * yaml)) (m' : manager) :
  enhanced_headers_from m e config platform = (HeadersReturned h px, m') →
  h ≠ [] →
  ∃ pc file,
    subscript2 config "TokenManager" platform = inr pc
    ∧ subscript2 pc "headers" (cookie_key platform) = inr file
    ∧ m' = (if enabled m then (get_cookies m e platform false).2 else m)
    ∧ dict_get (cookie_key platform) h
      = Some match (if enabled m then (get_cookies m e platform false).1 else None) with
             | Some c => if Str.nonempty c then YStr c else file
             | None => file
             end.
Proof.
  intros H Hne.
  destruct (enhanced_headers_from_read m e config platform h px m' H Hne)
    as (fields & base & fb & Hread & Heq).
  destruct (read_platform_inv _ _ _ _ _ _ _ Hread) as (pc & Hpc & Hfile).
  exists pc, fb. do 2 (split; [done |]).
  destruct (enabled m).
  - destruct (get_cookies m e platform false) as [dyn m1]. simpl.
    injection Heq as -> ->. split; [done |]. apply dict_get_set_eq.
  - injection Heq as -> ->. split; [done |]. apply dict_get_set_eq.
Qed.

(** The first subscript of the configuration decides between the two ways
    out of a malformed file: a missing key gives empty headers and proxies,
    anything that is not a dictionary makes the call raise [TypeError], which
    its [except KeyError] does not catch; the manager is not called in either
    case. *)
Theorem enhanced_headers_first_error (m : manager) (e : env) (config : yaml)
    (platform : string) (err : subscript_error) :
  platform = "douyin" ∨ platform = "tiktok" ∨ platform = "bilibili" →
  py_truthy config = true →
  subscript2 config "TokenManager" platform = inl err →
  enhanced_headers_from m e config platform
  = (match err with
     | KeyError => HeadersReturned [] []
     | TypeError => HeadersRaised TypeError
     end, m).
Proof.
  intros Hp Ht Herr. unfold enhanced_headers_from, read_platform. rewrite Ht. simpl.
  destruct Hp as [-> | [-> | ->]]; simpl; rewrite Herr; simpl; by destruct err.
Qed.

Lemma enhanced_headers_first_error_witness :
  enhanced_headers_from Sample.fresh Sample.env_ok
    (YMap [("TokenManager", YNull)]) "douyin"
  = (HeadersRaised TypeError, Sample.fresh).
Proof.
  apply (enhanced_headers_first_error Sample.fresh Sample.env_ok
           (YMap [("TokenManager", YNull)]) "douyin" TypeError);
    [tauto | reflexivity | reflexivity].
Defined.

Section CrawlerProps.

Variable safe_load : string → option yaml.

Local Abbreviation _load_config_file := (_load_config_file safe_load).
Local Abbreviation get_enhanced_headers := (get_enhanced_headers safe_load).

(** A configuration that was loaded stays: later calls return it whatever
    the file holds by then, so a cookie that [update_config_file] writes is
    not seen by a crawler that has loaded the file before.  A load that
    failed returns the empty dictionary and is not remembered. *)
Theorem load_config_file_cached (config_cache : gmap string yaml)
    (disk : gmap string string) (config_path : string) :
  let out := _load_config_file config_cache disk config_path in
  (∀ config, out.2 !! config_path = Some config →
             out.1 = config
             ∧ ∀ disk', _load_config_file out.2 disk' config_path = out)
  ∧ (out.2 !! config_path = None → out = (YMap [], config_cache)).
Proof.
  cbv zeta. unfold _load_config_file.
  destruct (config_cache !! config_path) as [c|] eqn:Hc; simpl.
  { split; [| by rewrite Hc]. intros config Hcfg. rewrite Hc in Hcfg.
    injection Hcfg as <-. split; [done |]. intros disk'. by rewrite Hc. }
  destruct (disk !! config_path) as [content|]; simpl.
  2:{ split; [by rewrite Hc | done]. }
  destruct (safe_load content) as [c|]; simpl.
  2:{ split; [by rewrite Hc | done]. }
  split.
  - intros config Hcfg. rewrite lookup_insert_eq in Hcfg. injection Hcfg as <-.
    split; [done |]. intros disk'. by rewrite lookup_insert_eq.
  - intros Hn. by rewrite lookup_insert_eq in Hn.
Qed.

(** A crawler whose class name has none of the three platform names in it
    gets the name [unknown], and with it empty headers and proxies; the
    manager is not called. *)
Theorem get_enhanced_headers_unknown_class (class_name : string)
    (config_cache : gmap string yaml) (m : manager) (e : env)
    (disk : gmap string string) (config_path : string) :
  Str.contains "douyin" (Str.lower class_name) = false →
  Str.contains "tiktok" (Str.lower class_name) = false →
  Str.contains "bilibili" (Str.lower class_name) = false →
  get_enhanced_headers None class_name config_cache m e disk config_path None
  = (HeadersReturned [] [], Some "unknown",
     (_load_config_file config_cache disk config_path).2, m).
Proof.
  intros H1 H2 H3. unfold get_enhanced_headers, _get_platform_name,
    infer_platform_name. cbv zeta. rewrite H1, H2, H3.
  destruct (_load_config_file config_cache disk config_path) as [config cache'].
  simpl. unfold enhanced_headers_from. by destruct (py_truthy config).
Qed.

End CrawlerProps.

Lemma enhanced_headers_cookie_witness :
  ∃ pc file,
    subscript2 Sample.tiktok_config "TokenManager" "tiktok" = inr pc
    ∧ subscript2 pc "headers" (cookie_key "tiktok") = inr file
    ∧ Sample.fresh
      = (if enabled Sample.fresh
         then (get_cookies Sample.fresh Sample.env_down "tiktok" false).2
         else Sample.fresh)
    ∧ dict_get (cookie_key "tiktok")
        [("User-Agent", YStr "UA"); ("Referer", YStr "https://www.tiktok.com/");
         ("Cookie", YStr "file-cookie")]
      = Some match (if enabled Sample.fresh
                   then (get_cookies Sample.fresh Sample.env_down "tiktok" false).1
                   else None) with
             | Some c => if Str.nonempty c then YStr c else file
             | None => file
             end.
Proof.
  apply (enhanced_headers_cookie Sample.fresh Sample.env_down Sample.tiktok_config
           "tiktok" _ [("http://", YNull); ("https://", YNull)]).
  - vm_compute. reflexivity.
  - discriminate.
Defined.

Lemma get_enhanced_headers_unknown_class_witness :
  get_enhanced_headers Sample.load None "EnhancedYoutubeCrawler" ∅ Sample.fresh
    Sample.env_ok (files Sample.disk0) Sample.douyin_path None
  = (HeadersReturned [] [], Some "unknown",
     (_load_config_file Sample.load ∅ (files Sample.disk0) Sample.douyin_path).2,
     Sample.fresh).
Proof. apply get_enhanced_headers_unknown_class; reflexivity. Defined.

(** ** The connection test *)

Lemma connection_stats_total (data : list (string * entry)) (n : nat)
    (domains : list (string * nat)) :
  (connection_stats data n domains).1 = (n + length (visited_items data))%nat.
Proof.
  revert n domains. induction data as [|[k e] r IH]; intros n domains; simpl.
  - lia.
  - destruct (String.eqb k "update_time"); simpl; [apply IH |].
    destruct e as [l|]; simpl; [| apply IH].
    rewrite IH, length_app. lia.
Qed.

Lemma cookies_of_length (l : list item) (cs : list cookie) :
  cookies_of l = Some cs → length cs = length l.
Proof.
  revert cs. induction l as [|[c|] r IH]; intros cs; simpl.
  - by intros [= <-].
  - destruct (cookies_of r) as [cs'|]; simpl; [| done].
    intros [= <-]. simpl. f_equal. by apply IH.
  - done.
Qed.

(** The number of cookies that the connection test reports is the number of
    items a resolution visits: no resolution matches more records than that,
    and when the test reports none, as for data that hold [update_time]
    alone, every resolution finds no match. *)
Theorem connection_stats_bounds (data : list (string * entry)) :
  (connection_stats data 0 []).1 = length (visited_items data)
  ∧ (∀ t l, match_all t data [] = Some l →
            (length l ≤ (connection_stats data 0 []).1)%nat)
  ∧ ((connection_stats data 0 []).1 = 0%nat →
     ∀ t, match_all t data [] = Some []).
Proof.
  rewrite connection_stats_total. simpl. split; [done |]. split.
  - intros t l. rewrite match_all_spec. simpl.
    destruct (cookies_of (visited_items data)) as [cs|] eqn:Hcs; [| done].
    simpl. intros [= <-]. rewrite <- (cookies_of_length _ _ Hcs).
    apply filter_length_all.
  - intros H t. rewrite match_all_spec.
    destruct (visited_items data); [done | discriminate].
Qed.

(** ** A successful persist *)

Section PersistSuccess.

Variable safe_load : string → option yaml.
Variable dump : yaml → string.

Local Abbreviation update_config_file := (update_config_file safe_load dump).

(** [update_config_file] returns [True] exactly when the platform has a
    configuration file, the file exists, is read and parsed, the field path
    resolves and the disk does not fail; the file then holds the dump of the
    updated configuration and no other file is changed. *)
Theorem update_config_file_success m fault platform cookie s :
  (update_config_file m fault platform cookie s).1 = true
  ↔ ∃ config_file content cfg cfg',
      config_file_map m platform = Some config_file
      ∧ files s !! config_file = Some content
      ∧ safe_load content = Some cfg
      ∧ update_cookie cfg platform cookie = Some cfg'
      ∧ fault = NoFault
      ∧ files (update_config_file m fault platform cookie s).2
        = <[config_file := dump cfg']> (files s).
Proof.
  unfold update_config_file.
  destruct (config_file_map m platform) as [cf|]; simpl.
  2:{ split; [done | by intros (? & ? & ? & ? & ? & _)]. }
  destruct (files s !! cf) as [content|] eqn:Hf; simpl.
  2:{ split; [done |]. intros (? & ? & ? & ? & [= <-] & ? & _). congruence. }
  assert (Hgen : ∀ (P : Prop), (false = true ↔ P) ↔ ¬ P).
  { intros P. split; [by intros [_ H] HP; discriminate (H HP) | by intros H; split]. }
  destruct (safe_load content) as [cfg|] eqn:Hl.
  - destruct (update_cookie cfg platform cookie) as [cfg'|] eqn:Hu.
    + destruct fault; simpl.
      * split; [| done]. intros _. by exists cf, content, cfg, cfg'.
      * apply Hgen. by intros (? & ? & ? & ? & _ & _ & _ & _ & ? & _).
      * apply Hgen. by intros (? & ? & ? & ? & _ & _ & _ & _ & ? & _).
      * apply Hgen. by intros (? & ? & ? & ? & _ & _ & _ & _ & ? & _).
    + assert (Hno : ¬ ∃ config_file content0 cfg0 cfg',
                 Some cf = Some config_file
                 ∧ files s !! config_file = Some content0
                 ∧ safe_load content0 = Some cfg0
                 ∧ update_cookie cfg0 platform cookie = Some cfg'
                 ∧ fault = NoFault
                 ∧ files (match fault with
                          | ReadFails => touch (IoExists cf) s
                          | _ => touch (IoRead cf) (touch (IoExists cf) s)
                          end) = <[config_file := dump cfg']> (files s)).
      { intros (? & ? & ? & ? & [= <-] & Hf' & Hl' & Hu' & _).
        rewrite Hf in Hf'. injection Hf' as <-. congruence. }
      destruct fault; simpl in *; by apply Hgen.
  - assert (Hno : ¬ ∃ config_file content0 cfg0 cfg',
               Some cf = Some config_file
               ∧ files s !! config_file = Some content0
               ∧ safe_load content0 = Some cfg0
               ∧ update_cookie cfg0 platform cookie = Some cfg'
               ∧ fault = NoFault
               ∧ files (match fault with
                        | ReadFails => touch (IoExists cf) s
                        | _ => touch (IoRead cf) (touch (IoExists cf) s)
                        end) = <[config_file := dump cfg']> (files s)).
    { intros (? & ? & ? & ? & [= <-] & Hf' & Hl' & _).
      rewrite Hf in Hf'. injection Hf' as <-. congruence. }
    destruct fault; simpl in *; by apply Hgen.
Qed.

(** When the YAML library reads back what it printed, a cookie persisted
    by [update_config_file] is the fallback cookie that a crawler then loads
    from the file. *)
Theorem persisted_cookie_read_back m platform cookie s config_file content
    cfg cfg' :
  config_file_map m platform = Some config_file →
  files s !! config_file = Some content →
  safe_load content = Some cfg →
  update_cookie cfg platform cookie = Some cfg' →
  safe_load (dump cfg') = Some cfg' →
  (update_config_file m NoFault platform cookie s).1 = true
  ∧ (_get_fallback_cookie safe_load ∅
       (files (update_config_file m NoFault platform cookie s).2)
       platform config_file).1 = YStr cookie.
Proof.
  intros Hmap Hf Hl Hu Hrt.
  unfold update_config_file. rewrite Hmap, Hf, Hl, Hu. simpl. split; [done |].
  unfold _get_fallback_cookie, _load_config_file.
  rewrite lookup_empty, lookup_insert_eq, Hrt. simpl.
  eapply fallback_cookie_after_update_gen; [| done].
  by apply config_file_map_Some in Hmap as [Hp _].
Qed.

End PersistSuccess.

Lemma update_config_file_success_witness :
  (update_config_file Sample.load Sample.flow_dump Sample.fresh NoFault
     "bilibili" "SESSDATA=abc" Sample.disk0).1 = true.
Proof.
  apply update_config_file_success.
  exists Sample.bilibili_path, Sample.bilibili_doc, Sample.bilibili_config,
    Sample.bilibili_config_new.
  repeat split; vm_compute; reflexivity.
Defined.

Lemma persisted_cookie_read_back_witness :
  (_get_fallback_cookie Sample.reload ∅
     (files (update_config_file Sample.reload Sample.flow_dump Sample.fresh
               NoFault "bilibili" "SESSDATA=abc" Sample.disk0).2)
     "bilibili" Sample.bilibili_path).1 = YStr "SESSDATA=abc".
Proof.
  refine (proj2 (persisted_cookie_read_back Sample.reload Sample.flow_dump
                   Sample.fresh "bilibili" "SESSDATA=abc" Sample.disk0
                   Sample.bilibili_path Sample.bilibili_doc
                   Sample.bilibili_config Sample.bilibili_config_new
                   _ _ _ _ _)); vm_compute; reflexivity.
Defined.
